(** * py-custom-agent: message reassembly and dispatch core

    A shallow embedding of [src/client.py] ([WebSocketClient]),
    [src/utils.py] ([is_fragmented_message], [extract_json_from_text]) and
    [src/agent.py] ([OllamaAgent.process_message]), with the properties of
    the reassembly core stated and proved over it.

    Conventions.
    - A decoded JSON value is a [pyval].  JSON numbers are Python ints here;
      frames carrying a number with a fraction or an exponent (Python
      floats) are outside the value type.
    - Strings are byte strings holding UTF-8, on which the bytewise
      lexicographic order and the substring test agree with Python's
      code-point versions.
    - A Python call either returns or raises: [result].  State is passed
      explicitly; a call that raises still returns the state it left behind.
    - What the source calls but does not define ([json.loads], [repr] of a
      [str], the HTTP call to the backend) is a field of the class
      [Runtime]. *)

From stdpp Require Import base option list strings pretty gmap fin_maps.
From Stdlib Require Import Ascii ZArith Lia Permutation Sorted.

#[local] Set Warnings "-register-all".

Local Open Scope string_scope.
Local Open Scope Z_scope.

(** ** Python values and outcomes *)

Inductive pyval : Type :=
| PyNone
| PyBool (b : bool)
| PyInt (z : Z)
| PyStr (s : string)
| PyList (l : list pyval)
| PyDict (d : list (string * pyval)).

Inductive exn : Type :=
| TypeError
| AttributeError.

Inductive result (A : Type) : Type :=
| Return (a : A)
| Raise (e : exn).
Arguments Return {A} a.
Arguments Raise {A} e.

Definition bind {A B : Type} (r : result A) (k : A -> result B) : result B :=
  match r with
  | Return a => k a
  | Raise e => Raise e
  end.

Notation "'let*' x ':=' r 'in' k" := (bind r (fun x => k))
  (at level 10, x name, r at level 100, k at level 200, only parsing).

(** A decoded JSON object: its fields in insertion order. *)
Abbreviation record := (list (string * pyval)).

(** [d.get(k)] on the insertion-ordered record of a JSON object. *)
Fixpoint dict_get (d : list (string * pyval)) (k : string) : option pyval :=
  match d with
  | [] => None
  | (k', v) :: d' => if String.eqb k' k then Some v else dict_get d' k
  end.

(** [d.get(k, dflt)] *)
Definition dict_get_or (d : list (string * pyval)) (k : string) (dflt : pyval) : pyval :=
  match dict_get d k with
  | Some v => v
  | None => dflt
  end.

(** [d.get(k)], which is [None] for an absent key. *)
Definition dict_get_none (d : list (string * pyval)) (k : string) : pyval :=
  dict_get_or d k PyNone.

(** [k in d] *)
Definition dict_has (d : list (string * pyval)) (k : string) : bool :=
  match dict_get d k with
  | Some _ => true
  | None => false
  end.

(** [bool] is a subclass of [int]: [True == 1], [False == 0]. *)
Definition as_num (v : pyval) : option Z :=
  match v with
  | PyInt z => Some z
  | PyBool true => Some 1
  | PyBool false => Some 0
  | _ => None
  end.

(** Truth value, as tested by [or], [if] and [not]. *)
Definition py_truthy (v : pyval) : bool :=
  match v with
  | PyNone => false
  | PyBool b => b
  | PyInt z => negb (z =? 0)
  | PyStr s => negb (String.eqb s EmptyString)
  | PyList l => match l with [] => false | _ => true end
  | PyDict d => match d with [] => false | _ => true end
  end.

(** [a or b], with [b] already a value (every right operand in the source
    is free of effects). *)
Definition py_or (a b : pyval) : pyval :=
  if py_truthy a then a else b.

(** [a == b] on decoded JSON values; it never raises. *)
Fixpoint py_eq (a b : pyval) {struct a} : bool :=
  match a, b with
  | PyNone, PyNone => true
  | PyStr s, PyStr t => String.eqb s t
  | PyList l, PyList m =>
      (fix go (l m : list pyval) {struct l} : bool :=
         match l, m with
         | [], [] => true
         | x :: l', y :: m' => py_eq x y && go l' m'
         | _, _ => false
         end) l m
  | PyDict d, PyDict e =>
      Nat.eqb (length d) (length e) &&
      (fix go (d : list (string * pyval)) : bool :=
         match d with
         | [] => true
         | (k, v) :: d' =>
             match dict_get e k with
             | Some w => py_eq v w
             | None => false
             end && go d'
         end) d
  | _, _ =>
      match as_num a, as_num b with
      | Some x, Some y => x =? y
      | _, _ => false
      end
  end.

(** [a < b]: defined between numbers, between strings and between lists;
    every other pairing raises [TypeError]. *)
Fixpoint py_lt (a b : pyval) {struct a} : result bool :=
  match a, b with
  | PyStr s, PyStr t => Return (String.ltb s t)
  | PyList l, PyList m =>
      (fix go (l m : list pyval) {struct l} : result bool :=
         match l, m with
         | [], [] => Return false
         | [], _ :: _ => Return true
         | _ :: _, [] => Return false
         | x :: l', y :: m' => if py_eq x y then go l' m' else py_lt x y
         end) l m
  | _, _ =>
      match as_num a, as_num b with
      | Some x, Some y => Return (x <? y)
      | _, _ => Raise TypeError
      end
  end.

(** [a > b] is [b < a] for these types. *)
Definition py_gt (a b : pyval) : result bool := py_lt b a.

(** [n >= t] for a length [n] and a number [t]. *)
Definition py_ge (a b : pyval) : result bool :=
  match as_num a, as_num b with
  | Some x, Some y => Return (y <=? x)
  | _, _ => Raise TypeError
  end.

(** [sep.join(l)] *)
Fixpoint join (sep : string) (l : list string) : string :=
  match l with
  | [] => EmptyString
  | [s] => s
  | s :: l' => s +:+ sep +:+ join sep l'
  end.

(** What the source calls but does not define. *)
Class Runtime : Type := {
  (** [json.loads]; [None] stands for [json.JSONDecodeError], the one
      exception its callers catch.  A text on which [json.loads] raises
      anything else ([RecursionError] on deep nesting, [ValueError] on an
      integer beyond the digit limit) is outside the model: the properties
      speak of the texts that it decodes or rejects with
      [JSONDecodeError]. *)
  json_loads : string -> option pyval;
  (** [repr] of a [str] object (quoting and escaping) *)
  str_repr : string -> string;
  (** [OllamaAgent.query_llm]: the HTTP round trip to the backend, [None]
      on a timeout or a request error *)
  query_llm : string -> option string
}.

Section Client.

Context `{Runtime}.

(** [repr(v)] *)
Fixpoint py_repr (v : pyval) : string :=
  match v with
  | PyNone => "None"
  | PyBool true => "True"
  | PyBool false => "False"
  | PyInt z => pretty z
  | PyStr s => str_repr s
  | PyList l => "[" +:+ join ", " (map py_repr l) +:+ "]"
  | PyDict d =>
      "{" +:+ join ", " (map (fun kv => str_repr (fst kv) +:+ ": " +:+ py_repr (snd kv)) d)
          +:+ "}"
  end.

(** [str(v)] *)
Definition py_str (v : pyval) : string :=
  match v with
  | PyStr s => s
  | _ => py_repr v
  end.

(** ** [utils.is_fragmented_message] *)

(** [needle in s] for strings. *)
Fixpoint str_contains (needle s : string) : bool :=
  String.prefix needle s ||
  match s with
  | EmptyString => false
  | String _ s' => str_contains needle s'
  end.

(** [key in data]: key membership for a dict, substring test for a str,
    element membership for a list; anything else is not iterable. *)
Definition py_contains (data : pyval) (key : string) : result bool :=
  match data with
  | PyDict d => Return (dict_has d key)
  | PyStr s => Return (str_contains key s)
  | PyList l => Return (existsb (fun x => py_eq x (PyStr key)) l)
  | _ => Raise TypeError
  end.

(** [any(key in data for key in keys)] *)
Fixpoint any_in (data : pyval) (keys : list string) : result bool :=
  match keys with
  | [] => Return false
  | key :: keys' =>
      let* b := py_contains data key in
      if b then Return true else any_in data keys'
  end.

Definition fragment_keys : list string :=
  ["fragment"; "sequence"; "part"; "chunk"; "index"].
Definition total_keys : list string :=
  ["total"; "total_fragments"; "total_parts"; "count"].

Definition is_fragmented_message (data : pyval) : result bool :=
  let* has_fragment_indicator := any_in data fragment_keys in
  let* has_total_indicator := any_in data total_keys in
  let* has_timestamp := py_contains data "timestamp" in
  let* has_id :=
    (let* a := py_contains data "id" in
     if a then Return true else py_contains data "message_id") in
  Return (has_fragment_indicator || has_total_indicator ||
          (has_timestamp && has_id)).

(** ** [WebSocketClient] *)

(** Keys of the [self.fragments] dict.  Python hashes and compares
    [True]/[1] and [False]/[0] alike; lists and dicts are unhashable. *)
Inductive hkey : Type :=
| KNone
| KNum (z : Z)
| KStr (s : string).

#[global] Instance hkey_eq_dec : EqDecision hkey.
Proof. solve_decision. Defined.

#[global] Instance hkey_countable : Countable hkey.
Proof.
  refine (inj_countable'
    (fun k => match k with
              | KNone => inl ()
              | KNum z => inr (inl z)
              | KStr s => inr (inr s)
              end)
    (fun x => match x with
              | inl _ => KNone
              | inr (inl z) => KNum z
              | inr (inr s) => KStr s
              end) _).
  by intros [].
Defined.

Definition py_hash (v : pyval) : option hkey :=
  match v with
  | PyNone => Some KNone
  | PyBool true => Some (KNum 1)
  | PyBool false => Some (KNum 0)
  | PyInt z => Some (KNum z)
  | PyStr s => Some (KStr s)
  | PyList _ | PyDict _ => None
  end.

(** The fields of [WebSocketClient] that [handle_message] reads or
    writes ([agent], [logger], [uri], [timeout] and [auto_mode] are used by
    [run] only). *)
Record client : Type := Client {
  enable_fragments : bool;
  fragments : gmap hkey (list record);
  message_buffer : list pyval
}.

(** [WebSocketClient.__init__] *)
Definition init (enable : bool) : client :=
  {| enable_fragments := enable; fragments := ∅; message_buffer := [] |}.

(** The sort key of [reconstruct_fragments]:
    [x.get('sequence', x.get('timestamp', x.get('index', 0)))]. *)
Definition sort_key (x : record) : pyval :=
  dict_get_or x "sequence" (dict_get_or x "timestamp" (dict_get_or x "index" (PyInt 0))).

(** [sorted(l, key=...)]: Python's sort is stable and compares keys with
    [<] only; a comparison that raises aborts it.  Modelled as a stable
    insertion sort. *)
Fixpoint insert_sorted (x : record) (l : list record) : result (list record) :=
  match l with
  | [] => Return [x]
  | y :: l' =>
      let* lt := py_lt (sort_key y) (sort_key x) in
      if lt then (let* r := insert_sorted x l' in Return (y :: r))
      else Return (x :: l)
  end.

Fixpoint py_sorted (l : list record) : result (list record) :=
  match l with
  | [] => Return []
  | x :: l' => let* s := py_sorted l' in insert_sorted x s
  end.

(** The text taken from one fragment (client.py, lines 62-66). *)
Definition frag_text (frag : record) : pyval :=
  py_or (dict_get_none frag "text")
    (py_or (dict_get_none frag "content")
       (py_or (dict_get_none frag "message")
          (py_or (dict_get_none frag "data")
             (PyStr (py_str (PyDict frag)))))).

(** The loop filling [texts] (lines 59-68). *)
Fixpoint collect_texts (l : list record) : list string :=
  match l with
  | [] => []
  | frag :: l' =>
      let text := frag_text frag in
      if py_truthy text then py_str text :: collect_texts l'
      else collect_texts l'
  end.

Definition reconstruct_fragments (frags : list record) : result (option string) :=
  match frags with
  | [] => Return None
  | _ =>
      let* sorted_fragments := py_sorted frags in
      let texts := collect_texts sorted_fragments in
      match texts with
      | [] => Return None
      | _ => Return (Some (join " " texts))
      end
  end.

(** An [Optional[str]] as a Python value. *)
Definition of_optional (o : option string) : pyval :=
  match o with
  | Some s => PyStr s
  | None => PyNone
  end.

(** [data.get('total', data.get('total_fragments', data.get('count', 0)))] *)
Definition declared_total (data : record) : pyval :=
  dict_get_or data "total"
    (dict_get_or data "total_fragments" (dict_get_or data "count" (PyInt 0))).

(** [data.get('id', data.get('message_id', 'default'))] *)
Definition fragment_id (data : record) : pyval :=
  dict_get_or data "id" (dict_get_or data "message_id" (PyStr "default")).

(** [total > 0 and current_count >= total] *)
Definition is_complete (total : pyval) (current_count : nat) : result bool :=
  let* positive := py_gt total (PyInt 0) in
  if positive then py_ge (PyInt (Z.of_nat current_count)) total
  else Return false.

Definition set_fragments (st : client) (f : gmap hkey (list record)) : client :=
  {| enable_fragments := enable_fragments st;
     fragments := f;
     message_buffer := message_buffer st |}.

Definition buffer_append (st : client) (data : pyval) : client :=
  {| enable_fragments := enable_fragments st;
     fragments := fragments st;
     message_buffer := (message_buffer st ++ [data])%list |}.

(** Lines 123-131: the content of a frame that is not a fragment. *)
Definition extract_content (data : pyval) : pyval :=
  match data with
  | PyDict d =>
      py_or (dict_get_none d "message")
        (py_or (dict_get_none d "text")
           (py_or (dict_get_none d "content") (PyStr (py_str data))))
  | _ => PyStr (py_str data)
  end.

(** Lines 102-121: a frame that [is_fragmented_message] accepted.  Only a
    dict has [.get]. *)
Definition ingest (st : client) (data : pyval) : client * result pyval :=
  match data with
  | PyDict d =>
      match py_hash (fragment_id d) with
      | None => (st, Raise TypeError)
      | Some k =>
          let acc := (default [] (fragments st !! k) ++ [d])%list in
          let st' := set_fragments st (<[k := acc]> (fragments st)) in
          let total := declared_total d in
          let current_count := length acc in
          match is_complete total current_count with
          | Raise e => (st', Raise e)
          | Return true =>
              match reconstruct_fragments acc with
              | Raise e => (st', Raise e)
              | Return reconstructed =>
                  (set_fragments st' (<[k := []]> (fragments st')),
                   Return (of_optional reconstructed))
              end
          | Return false => (st', Return PyNone)
          end
      end
  | _ => (st, Raise AttributeError)
  end.

(** Lines 97-131: the frame decoded to [data]. *)
Definition handle_data (st : client) (data : pyval) : client * result pyval :=
  let st := buffer_append st data in
  if enable_fragments st then
    match is_fragmented_message data with
    | Raise e => (st, Raise e)
    | Return true => ingest st data
    | Return false => (st, Return (extract_content data))
    end
  else (st, Return (extract_content data)).

(** [WebSocketClient.handle_message] *)
Definition handle_message (st : client) (raw_message : string) : client * result pyval :=
  match json_loads raw_message with
  | None => (st, Return (PyStr raw_message))
  | Some data => handle_data st data
  end.

(** Successive calls of [handle_message], one per frame, with the outcome
    of each. *)
Fixpoint feed (st : client) (frames : list string) : client * list (result pyval) :=
  match frames with
  | [] => (st, [])
  | raw :: frames' =>
      let '(st1, r) := handle_message st raw in
      let '(st2, rs) := feed st1 frames' in
      (st2, r :: rs)
  end.

(** ** [utils.extract_json_from_text] and [OllamaAgent.process_message] *)

(** The number of bytes of the white-space character at the head of [s],
    [0] when there is none: Python's [\s] and [str.strip] take the
    characters U+0009-000D, U+001C-0020, U+0085, U+00A0, U+1680,
    U+2000-200A, U+2028, U+2029, U+202F, U+205F and U+3000. *)
Definition space_width (s : string) : nat :=
  match s with
  | String c0 s0 =>
      let b0 := Ascii.N_of_ascii c0 in
      if ((9 <=? b0) && (b0 <=? 13) || (28 <=? b0) && (b0 <=? 32))%N then 1%nat
      else
        match s0 with
        | String c1 s1 =>
            let b1 := Ascii.N_of_ascii c1 in
            if ((b0 =? 194) && ((b1 =? 133) || (b1 =? 160)))%N then 2%nat
            else
              match s1 with
              | String c2 _ =>
                  let b2 := Ascii.N_of_ascii c2 in
                  if ((b0 =? 225) && (b1 =? 154) && (b2 =? 128)
                      || (b0 =? 226) && (b1 =? 128)
                         && ((128 <=? b2) && (b2 <=? 138) || (b2 =? 168)
                             || (b2 =? 169) || (b2 =? 175))
                      || (b0 =? 226) && (b1 =? 129) && (b2 =? 159)
                      || (b0 =? 227) && (b1 =? 128) && (b2 =? 128))%N
                  then 3%nat else 0%nat
              | EmptyString => 0%nat
              end
        | EmptyString => 0%nat
        end
  | EmptyString => 0%nat
  end.

(** The number of bytes of the longest white-space prefix ([skip] bytes of
    a character already counted remain to be passed). *)
Fixpoint space_prefix (skip : nat) (s : string) : nat :=
  match s with
  | EmptyString => 0%nat
  | String _ s' =>
      match skip with
      | S j => S (space_prefix j s')
      | O =>
          match space_width s with
          | O => 0%nat
          | S j => S (space_prefix j s')
          end
      end
  end.

Fixpoint drop_bytes (n : nat) (s : string) : string :=
  match n, s with
  | S n', String _ s' => drop_bytes n' s'
  | _, _ => s
  end.

Definition lstrip (s : string) : string := drop_bytes (space_prefix 0 s) s.

Fixpoint rstrip (s : string) : string :=
  match s with
  | EmptyString => EmptyString
  | String c s' =>
      if Nat.eqb (space_prefix 0 s) (String.length s) then EmptyString
      else String c (rstrip s')
  end.

(** [s.strip()] *)
Definition strip (s : string) : string := rstrip (lstrip s).

(** [re.sub(fence + r'\s*', '', s)] for a literal, non-empty [fence]. *)
Fixpoint re_sub_fence (fence : string) (skip : nat) (s : string) : string :=
  match s with
  | EmptyString => EmptyString
  | String c s' =>
      match skip with
      | S j => re_sub_fence fence j s'
      | O =>
          if String.prefix fence s then
            let n := String.length fence in
            re_sub_fence fence (Nat.pred (n + space_prefix 0 (drop_bytes n s))) s'
          else String c (re_sub_fence fence 0 s')
      end
  end.

Definition is_open (c : Ascii.ascii) : bool := Ascii.eqb c "{"%char.
Definition is_close (c : Ascii.ascii) : bool := Ascii.eqb c "}"%char.

(** [[^{}]*\}] at the head of [s]: the number of bytes matched. *)
Fixpoint flat_body (s : string) : option nat :=
  match s with
  | EmptyString => None
  | String c s' =>
      if is_close c then Some 1%nat
      else if is_open c then None
      else S <$> flat_body s'
  end.

(** [(?:[^{}]|(?:\{[^{}]*\}))*\}] at the head of [s]: the number of bytes
    matched.  No iteration of the group can start at a closing brace, so
    backtracking never finds a second way. *)
Fixpoint nested_body (skip : nat) (s : string) : option nat :=
  match s with
  | EmptyString => None
  | String c s' =>
      match skip with
      | S j => S <$> nested_body j s'
      | O =>
          if is_close c then Some 1%nat
          else if is_open c then
            match flat_body s' with
            | Some n => S <$> nested_body n s'
            | None => None
            end
          else S <$> nested_body 0 s'
      end
  end.

(** [re.findall(r'\{' + body, s)]: the matches from left to right, none
    overlapping another. *)
Fixpoint findall (body : string -> option nat) (skip : nat) (s : string) : list string :=
  match s with
  | EmptyString => []
  | String c s' =>
      match skip with
      | S j => findall body j s'
      | O =>
          if is_open c then
            match body s' with
            | Some n => String.substring 0 (S n) s :: findall body n s'
            | None => findall body 0 s'
            end
          else findall body 0 s'
      end
  end.

(** The two loops over [matches] (lines 87-93 and 99-105). *)
Fixpoint first_dict (matches : list string) : option pyval :=
  match matches with
  | [] => None
  | m :: matches' =>
      match json_loads m with
      | Some (PyDict d) => Some (PyDict d)
      | _ => first_dict matches'
      end
  end.

Definition extract_json_from_text (text : string) : pyval :=
  let text := re_sub_fence "```json" 0 text in
  let text := re_sub_fence "```" 0 text in
  match json_loads (strip text) with
  | Some v => v
  | None =>
      match first_dict (findall flat_body 0 text) with
      | Some obj => obj
      | None =>
          match first_dict (findall (nested_body 0) 0 text) with
          | Some obj => obj
          | None => PyNone
          end
      end
  end.

Definition process_message (message : string) : pyval :=
  match query_llm message with
  | None => PyNone
  | Some llm_response =>
      if String.eqb llm_response EmptyString then PyNone
      else
        let response_data := extract_json_from_text llm_response in
        if py_truthy response_data then response_data else PyNone
  end.

End Client.

(** ** Notions the properties are stated with *)

Section Notions.

Context `{Runtime}.

(** The kinds of values that [<] tells apart: it is defined within
    [KindNum], within [KindStr] and (element by element) within [KindList],
    and raises across kinds. *)
Inductive kind : Type :=
| KindNone
| KindNum
| KindStr
| KindList
| KindDict.

Definition kind_of (v : pyval) : kind :=
  match v with
  | PyNone => KindNone
  | PyBool _ | PyInt _ => KindNum
  | PyStr _ => KindStr
  | PyList _ => KindList
  | PyDict _ => KindDict
  end.

(** Sequence keys that are all numbers, or all strings. *)
Definition uniform_keys (ds : list record) : Prop :=
  Forall (fun d => kind_of (sort_key d) = KindNum) ds
  \/ Forall (fun d => kind_of (sort_key d) = KindStr) ds.

(** The accumulator of group [k]: empty for a key not yet seen. *)
Definition acc_of (st : client) (k : hkey) : list record :=
  default [] (fragments st !! k).

(** The group a frame is addressed to: the frame decodes to a record that
    [is_fragmented_message] accepts and whose group identifier is
    hashable. *)
Definition frame_key (raw : string) : option hkey :=
  match json_loads raw with
  | Some (PyDict d) =>
      match is_fragmented_message (PyDict d) with
      | Return true => py_hash (fragment_id d)
      | _ => None
      end
  | _ => None
  end.

Definition in_group (k : hkey) (raw : string) : bool :=
  bool_decide (frame_key raw = Some k).

(** Lines 107-121 seen from one group: the accumulator and the fragment
    that arrives, to the accumulator left behind and the outcome. *)
Definition group_step (acc : list record) (d : record) : list record * result pyval :=
  let acc' := (acc ++ [d])%list in
  match is_complete (declared_total d) (length acc') with
  | Raise e => (acc', Raise e)
  | Return true =>
      match reconstruct_fragments acc' with
      | Raise e => (acc', Raise e)
      | Return reconstructed => ([], Return (of_optional reconstructed))
      end
  | Return false => (acc', Return PyNone)
  end.

(** The content extracted from one fragment, as it enters the joined
    text. *)
Definition content (frag : record) : string := py_str (frag_text frag).

(** [a] may stand before [b] in ascending order of sequence key. *)
Definition key_le (a b : record) : Prop :=
  py_lt (sort_key b) (sort_key a) = Return false.

(** Some byte of the text is an opening brace. *)
Fixpoint has_open (s : string) : bool :=
  match s with
  | EmptyString => false
  | String c s' => is_open c || has_open s'
  end.

(** The frames of a stream are fragments of group [k], with records
    [ds]. *)
Definition arrival (k : hkey) (frames : list string) (ds : list record) : Prop :=
  Forall2 (fun raw d => json_loads raw = Some (PyDict d) /\ frame_key raw = Some k)
    frames ds.

(** The outcomes of the frames of group [k] among those of a stream. *)
Definition outcomes_of (k : hkey) (frames : list string) (rs : list (result pyval))
  : list (result pyval) :=
  map snd (filter (fun p => in_group k (fst p) = true) (zip frames rs)).

End Notions.

(** ** [WebSocketClient.run] *)

(** How one pass through the body of the loop after [handle_message]
    (lines 161-189) ends: logging, the agent or the operator, and the reply
    sent. *)
Inductive dispatched : Type :=
| Continue
| Break
| Fail (e : exn).

(** How [run] ends: the stream of frames is exhausted, the operator left,
    or an exception went through [raise]. *)
Inductive session_end : Type :=
| Closed
| Quit
| Crashed (e : exn).

Section Session.

Context `{Runtime}.

(** The world the loop body acts on (socket, backend, terminal) and the
    loop body itself. *)
Variable world : Type.
Variable dispatch : world -> pyval -> world * dispatched.

Fixpoint run (st : client) (w : world) (frames : list string) : client * world * session_end :=
  match frames with
  | [] => (st, w, Closed)
  | raw_message :: frames' =>
      match handle_message st raw_message with
      | (st', Raise e) => (st', w, Crashed e)
      | (st', Return PyNone) => run st' w frames'
      | (st', Return processed_message) =>
          match dispatch w processed_message with
          | (w', Continue) => run st' w' frames'
          | (w', Break) => (st', w', Quit)
          | (w', Fail e) => (st', w', Crashed e)
          end
      end
  end.

End Session.

(** ** A concrete runtime for worked scenarios *)

Definition dquote : string := String (ascii_of_nat 34) EmptyString.

(** The compact JSON text of a value whose strings need no escape (what
    [json.dumps(v, separators=(',', ':'))] prints); [json.loads] maps it
    back to the value. *)
Fixpoint json_text (v : pyval) : string :=
  match v with
  | PyNone => "null"
  | PyBool true => "true"
  | PyBool false => "false"
  | PyInt z => pretty z
  | PyStr s => dquote +:+ s +:+ dquote
  | PyList l => "[" +:+ join "," (map json_text l) +:+ "]"
  | PyDict d =>
      "{" +:+ join "," (map (fun kv => dquote +:+ fst kv +:+ dquote +:+ ":" +:+ json_text (snd kv)) d)
          +:+ "}"
  end.

(** [json.loads] on the texts of the listed values; any other frame is
    taken not to be JSON. *)
Fixpoint loads_of (values : list pyval) (raw : string) : option pyval :=
  match values with
  | [] => None
  | v :: values' => if String.eqb (json_text v) raw then Some v else loads_of values' raw
  end.

(** [repr] of a [str] of printable ASCII without quote or backslash. *)
Definition plain_repr (s : string) : string := "'" +:+ s +:+ "'".

Definition scenario (values : list pyval) (llm : string -> option string) : Runtime :=
  {| json_loads := loads_of values; str_repr := plain_repr; query_llm := llm |}.

(** The fragments of the end-to-end scenario, in arrival order. *)
Definition frag_a : record :=
  [("id", PyStr "g1"); ("sequence", PyInt 1); ("total", PyInt 3); ("text", PyStr "a")].
Definition frag_c : record :=
  [("id", PyStr "g1"); ("sequence", PyInt 3); ("total", PyInt 3); ("text", PyStr "c")].
Definition frag_b : record :=
  [("id", PyStr "g1"); ("sequence", PyInt 2); ("total", PyInt 3); ("text", PyStr "b")].

(** A second group, interleaved with the first. *)
Definition frag_x : record :=
  [("id", PyStr "g2"); ("sequence", PyInt 2); ("total", PyInt 2); ("text", PyStr "x")].
Definition frag_w : record :=
  [("id", PyStr "g2"); ("sequence", PyInt 1); ("total", PyInt 2); ("text", PyStr "w")].

(** A group of two whose second fragment states no total. *)
Definition frag_first : record :=
  [("id", PyStr "g3"); ("sequence", PyInt 1); ("total", PyInt 2); ("text", PyStr "a")].
Definition frag_untotalled : record :=
  [("id", PyStr "g3"); ("sequence", PyInt 2); ("text", PyStr "b")].

(** A group of two, one keyed by an integer sequence and one by a string
    timestamp only. *)
Definition frag_seq : record :=
  [("id", PyStr "g4"); ("sequence", PyInt 1); ("total", PyInt 2); ("text", PyStr "a")].
Definition frag_stamp : record :=
  [("id", PyStr "g4"); ("timestamp", PyStr "t2"); ("total", PyInt 2); ("text", PyStr "b")].

(** Frames that are JSON but no mapping. *)
Definition json_array : pyval := PyList [PyInt 1; PyInt 2].
Definition json_string : pyval := PyStr "hello".
Definition json_number : pyval := PyInt 42.

(** The runtime of the scenarios: [json.loads] on the frames above, and a
    backend that answers every prompt with the text [42]. *)
Definition worked : Runtime :=
  scenario
    [PyDict frag_a; PyDict frag_c; PyDict frag_b; PyDict frag_x; PyDict frag_w;
     PyDict frag_first; PyDict frag_untotalled; PyDict frag_seq; PyDict frag_stamp;
     json_array; json_string; json_number]
    (fun _ => Some "42").

(** The frame carrying a value. *)
Definition frame (v : pyval) : string := json_text v.

(** A loop body that replies and goes on. *)
Definition reply_and_continue (w : unit) (message : pyval) : unit * dispatched :=
  (w, Continue).

(** ** [utils.sanitize_for_display] and [utils.validate_json_structure] *)

Section Display.

(** [len] and slicing count the characters of a [str], so the text is a
    list of characters here; [dot] is the full stop. *)
Context {char : Type}.
Variable dot : char.

(** [text[:n]]: a negative bound counts from the end. *)
Definition slice_to (n : Z) (text : list char) : list char :=
  if 0 <=? n then take (Z.to_nat n) text
  else take (Z.to_nat (Z.of_nat (length text) + n)) text.

Definition sanitize_for_display (text : list char) (max_length : Z) : list char :=
  if Z.of_nat (length text) <=? max_length then text
  else (slice_to max_length text ++ [dot; dot; dot])%list.

End Display.

(** [required_keys] is [None] by default. *)
Definition validate_json_structure (data : pyval) (required_keys : option (list string))
  : bool * option string :=
  match data with
  | PyDict d =>
      match required_keys with
      | Some ((_ :: _) as keys) =>
          let missing_keys := filter (fun key => dict_has d key = false) keys in
          match missing_keys with
          | [] => (true, None)
          | _ => (false, Some ("Missing required keys: " +:+ join ", " missing_keys))
          end
      | _ => (true, None)
      end
  | _ => (false, Some "Data must be a dictionary")
  end.

(** ** [OllamaAgent.test_connection] *)

(** [m.get('name')] *)
Definition entry_name (m : pyval) : result pyval :=
  match m with
  | PyDict d => Return (dict_get_none d "name")
  | _ => Raise AttributeError
  end.

Fixpoint entry_names (ms : list pyval) : result (list pyval) :=
  match ms with
  | [] => Return []
  | m :: ms' =>
      let* name := entry_name m in
      let* names := entry_names ms' in
      Return (name :: names)
  end.

(** [[m.get('name') for m in models]]: a list yields its elements, a dict
    its keys and a string its characters, which are strings and have no
    [get]; nothing else can be iterated. *)
Definition model_names (models : pyval) : result (list pyval) :=
  match models with
  | PyList l => entry_names l
  | PyDict d => entry_names (map (fun kv => PyStr (fst kv)) d)
  | PyStr s => if String.eqb s EmptyString then Return [] else Raise AttributeError
  | _ => Raise TypeError
  end.

(** [any(model in name for name in names)] *)
Fixpoint any_contains (model : string) (names : list pyval) : result bool :=
  match names with
  | [] => Return false
  | name :: names' =>
      let* b := py_contains name model in
      if b then Return true else any_contains model names'
  end.

(** The answer of the tags endpoint: [None] when [requests.get] raised a
    [RequestException], else the status code and the decoded body.  The
    function catches nothing else. *)
Definition test_connection (model : string) (response : option (Z * pyval)) : result bool :=
  match response with
  | None => Return false
  | Some (status_code, body) =>
      if status_code =? 200 then
        match body with
        | PyDict b =>
            let* names := model_names (dict_get_or b "models" (PyList [])) in
            if existsb (fun name => py_eq name (PyStr model)) names then Return true
            else any_contains model names
        | _ => Raise AttributeError
        end
      else Return false
  end.

(** ** [Config.validate] and [Config.get_system_prompt] *)

(** The settings the two methods read. *)
Record config : Type := Config {
  WEBSOCKET_URI : string;
  SYSTEM_PROMPT : string;
  SYSTEM_PROMPT_FILE : string
}.

Definition validate (cls : config) : bool * option string :=
  if String.eqb (WEBSOCKET_URI cls) EmptyString then
    (false, Some "WEBSOCKET_URI is required in .env file")
  else if String.eqb (SYSTEM_PROMPT cls) EmptyString
          && String.eqb (SYSTEM_PROMPT_FILE cls) EmptyString then
    (false, Some "Either SYSTEM_PROMPT or SYSTEM_PROMPT_FILE must be set")
  else (true, None).

(** What opening and reading a file gives. *)
Inductive opened : Type :=
| Content (text : string)
| FileNotFoundError
| OtherError.

(** What [get_system_prompt] gives: the prompt, or one of its two
    [ValueError]s. *)
Inductive prompt : Type :=
| Prompt (text : string)
| ValueError_not_found
| ValueError_reading.

Definition get_system_prompt (read : string -> opened) (cls : config) : prompt :=
  if negb (String.eqb (SYSTEM_PROMPT cls) EmptyString) then Prompt (SYSTEM_PROMPT cls)
  else if negb (String.eqb (SYSTEM_PROMPT_FILE cls) EmptyString) then
    match read (SYSTEM_PROMPT_FILE cls) with
    | Content text => Prompt (strip text)
    | FileNotFoundError => ValueError_not_found
    | OtherError => ValueError_reading
    end
  else Prompt EmptyString.

(** ** Notions for the further properties *)

(** The messages a stream hands to the loop body: the returned values
    other than [None]. *)
Fixpoint messages_of (rs : list (result pyval)) : list pyval :=
  match rs with
  | [] => []
  | Return PyNone :: rs' => messages_of rs'
  | Return v :: rs' => v :: messages_of rs'
  | Raise _ :: rs' => messages_of rs'
  end.

(** Every fragment held in an accumulator is also in the message buffer,
    belongs to the group it is stored under and is one that
    [is_fragmented_message] accepts. *)
Definition accumulators_sound `{Runtime} (st : client) : Prop :=
  forall k acc d,
    fragments st !! k = Some acc -> d ∈ acc ->
    PyDict d ∈ message_buffer st
    /\ py_hash (fragment_id d) = Some k
    /\ is_fragmented_message (PyDict d) = Return true.

(** Notions for the fenced replies: a text with a backtick, a text with a
    closing brace, the line feed, and a text whose first [n] bytes are at
    least 128 (bytes that continue a character). *)
Fixpoint has_backtick (s : string) : bool :=
  match s with
  | EmptyString => false
  | String c s' => Ascii.eqb c "`"%char || has_backtick s'
  end.

Fixpoint has_close (s : string) : bool :=
  match s with
  | EmptyString => false
  | String c s' => is_close c || has_close s'
  end.

Definition newline : string := String (ascii_of_nat 10) EmptyString.

Fixpoint high_prefix (n : nat) (s : string) : bool :=
  match n, s with
  | S n', String c s' => (128 <=? N_of_ascii c)%N && high_prefix n' s'
  | _, _ => true
  end.

(** A value with items: a record, a string or an array. *)
Definition is_container (v : pyval) : bool :=
  match v with
  | PyDict _ | PyStr _ | PyList _ => true
  | _ => false
  end.

(** A second runtime, for the scenarios of the further properties. *)
Definition frag_text_total : record :=
  [("id", PyStr "g5"); ("sequence", PyInt 1); ("total", PyStr "2"); ("text", PyStr "a")].
Definition frag_list_id : record :=
  [("id", PyList [PyInt 1]); ("sequence", PyInt 1); ("total", PyInt 1)].
Definition frag_solo : record :=
  [("id", PyStr "g6"); ("total", PyInt 1); ("message", PyStr "m"); ("text", PyStr "t")].
Definition plain_record : record :=
  [("message", PyStr "hello"); ("text", PyStr "t")].
Definition json_count_string : pyval := PyStr "count me in".
Definition reply_record : record := [("action", PyStr "reply")].

Definition worked2 : Runtime :=
  scenario
    [PyDict frag_a; PyDict frag_c; PyDict frag_b; PyDict frag_text_total;
     PyDict frag_list_id; PyDict frag_solo; PyDict plain_record; json_count_string;
     json_number; PyDict reply_record]
    (fun _ => Some ("Here: " +:+ json_text (PyDict reply_record))).

(** A loop body that records the messages it is given. *)
Definition record_message (w : list pyval) (message : pyval) : list pyval * dispatched :=
  ((w ++ [message])%list, Continue).

(** A group of one fragment whose text is empty, and its runtime. *)
Definition frag_blank : record :=
  [("id", PyStr "g7"); ("total", PyInt 1); ("text", PyStr EmptyString)].

Definition worked3 : Runtime :=
  scenario [PyDict frag_blank] (fun _ => None).

(** Membership in a listed scenario, case by case; an arrival checked
    frame by frame. *)
Ltac in_list H :=
  repeat (apply elem_of_cons in H as [->|H]); [..|by apply elem_of_nil in H].

Ltac arrives := repeat (constructor; [split; reflexivity|]); constructor.

(** * Properties *)

Section Properties.

Context `{Runtime}.

(** ** Basic facts about one call *)

Lemma ingest_buffer st data :
  message_buffer (ingest st data).1 = message_buffer st.
Proof.
  unfold ingest. destruct data; try done.
  destruct (py_hash _); [|done].
  destruct (is_complete _ _) as [[]|]; try done.
  by destruct (reconstruct_fragments _).
Qed.

Lemma ingest_enable st data :
  enable_fragments (ingest st data).1 = enable_fragments st.
Proof.
  unfold ingest. destruct data; try done.
  destruct (py_hash _); [|done].
  destruct (is_complete _ _) as [[]|]; try done.
  by destruct (reconstruct_fragments _).
Qed.

Lemma handle_data_buffer st data :
  message_buffer (handle_data st data).1 = (message_buffer st ++ [data])%list.
Proof.
  unfold handle_data.
  destruct (enable_fragments _); [|done].
  destruct (is_fragmented_message _) as [[]|]; try done.
  by rewrite ingest_buffer.
Qed.

Lemma handle_message_enable st raw :
  enable_fragments (handle_message st raw).1 = enable_fragments st.
Proof.
  unfold handle_message, handle_data.
  destruct (json_loads raw); [|done]. simpl.
  destruct (enable_fragments st) eqn:E; [|done].
  destruct (is_fragmented_message _) as [[]|]; try done.
  by rewrite ingest_enable.
Qed.

Lemma feed_cons st raw frames :
  feed st (raw :: frames) =
  ((feed (handle_message st raw).1 frames).1,
   (handle_message st raw).2 :: (feed (handle_message st raw).1 frames).2).
Proof.
  simpl. destruct (handle_message st raw) as [st1 r]. simpl.
  by destruct (feed st1 frames).
Qed.

Lemma feed_app st frames1 frames2 :
  feed st (frames1 ++ frames2) =
  ((feed (feed st frames1).1 frames2).1,
   ((feed st frames1).2 ++ (feed (feed st frames1).1 frames2).2)%list).
Proof.
  revert st. induction frames1 as [|raw frames1 IH]; intros st.
  - simpl. by destruct (feed st frames2).
  - rewrite <- app_comm_cons, !feed_cons. simpl. by rewrite IH.
Qed.

Lemma feed_length st frames : length (feed st frames).2 = length frames.
Proof.
  revert st. induction frames as [|raw frames IH]; intros st; [done|].
  rewrite feed_cons. simpl. by rewrite IH.
Qed.

Lemma feed_enable st frames :
  enable_fragments (feed st frames).1 = enable_fragments st.
Proof.
  revert st. induction frames as [|raw frames IH]; intros st; [done|].
  rewrite feed_cons. simpl. by rewrite IH, handle_message_enable.
Qed.

(** ** One call, seen from the group of the frame *)

Lemma frame_key_inv raw k :
  frame_key raw = Some k ->
  exists d, json_loads raw = Some (PyDict d)
            /\ is_fragmented_message (PyDict d) = Return true
            /\ py_hash (fragment_id d) = Some k.
Proof.
  unfold frame_key. intros Hk.
  destruct (json_loads raw) as [[| | | | |d]|]; try done.
  destruct (is_fragmented_message (PyDict d)) as [[]|] eqn:Hf; try done.
  by exists d.
Qed.

Lemma handle_message_group st raw k d :
  enable_fragments st = true ->
  json_loads raw = Some (PyDict d) ->
  frame_key raw = Some k ->
  handle_message st raw =
  (set_fragments (buffer_append st (PyDict d))
     (<[k := (group_step (acc_of st k) d).1]> (fragments st)),
   (group_step (acc_of st k) d).2).
Proof.
  intros He Hd Hk. destruct (frame_key_inv _ _ Hk) as (d' & Hd' & Hf & Hh).
  assert (d' = d) as -> by congruence.
  unfold handle_message, handle_data. rewrite Hd. simpl. rewrite He, Hf.
  unfold ingest. rewrite Hh. unfold group_step, acc_of. simpl.
  destruct (is_complete _ _) as [[]|]; try done.
  destruct (reconstruct_fragments _); [|done].
  simpl. unfold set_fragments. simpl. by rewrite insert_insert_eq.
Qed.

Lemma handle_message_off st raw :
  enable_fragments st = false ->
  fragments (handle_message st raw).1 = fragments st
  /\ (handle_message st raw).2
     = match json_loads raw with
       | Some data => Return (extract_content data)
       | None => Return (PyStr raw)
       end.
Proof.
  intros He. unfold handle_message, handle_data.
  destruct (json_loads raw); [|done]. simpl. by rewrite He.
Qed.

(** A frame leaves the accumulator of every group but its own as it is. *)
Lemma handle_message_other st raw k :
  frame_key raw <> Some k ->
  fragments (handle_message st raw).1 !! k = fragments st !! k.
Proof.
  intros Hk. destruct (enable_fragments st) eqn:He.
  2: { by rewrite (proj1 (handle_message_off st raw He)). }
  destruct (frame_key raw) as [k'|] eqn:Hk'.
  - destruct (frame_key_inv _ _ Hk') as (d & Hd & _ & _).
    rewrite (handle_message_group st raw k' d He Hd Hk'). simpl.
    apply lookup_insert_ne. congruence.
  - unfold handle_message, handle_data. unfold frame_key in Hk'.
    destruct (json_loads raw) as [data|]; [|done]. simpl. rewrite He.
    destruct (is_fragmented_message data) as [[]|] eqn:Hf; try done.
    unfold ingest. destruct data; try done.
    rewrite Hf in Hk'. by rewrite Hk'.
Qed.

(** The outcome of a frame and what it leaves in its group's accumulator
    are determined by that accumulator alone. *)
Lemma handle_message_local st1 st2 raw k :
  enable_fragments st1 = enable_fragments st2 ->
  frame_key raw = Some k ->
  fragments st1 !! k = fragments st2 !! k ->
  (handle_message st1 raw).2 = (handle_message st2 raw).2
  /\ fragments (handle_message st1 raw).1 !! k
     = fragments (handle_message st2 raw).1 !! k.
Proof.
  intros He Hk Hacc. destruct (enable_fragments st1) eqn:He1.
  - destruct (frame_key_inv _ _ Hk) as (d & Hd & _ & _).
    rewrite (handle_message_group st1 raw k d He1 Hd Hk).
    rewrite (handle_message_group st2 raw k d (eq_sym He) Hd Hk).
    unfold acc_of. rewrite Hacc. simpl. by rewrite !lookup_insert_eq.
  - destruct (handle_message_off st1 raw He1) as [-> ->].
    by destruct (handle_message_off st2 raw (eq_sym He)) as [-> ->].
Qed.

(** The outcomes of the frames of one group within any stream are those of
    the group's frames fed alone. *)
Lemma feed_projection k frames : forall st1 st2,
  enable_fragments st1 = enable_fragments st2 ->
  fragments st1 !! k = fragments st2 !! k ->
  outcomes_of k frames (feed st1 frames).2
  = (feed st2 (filter (fun raw => in_group k raw = true) frames)).2
  /\ fragments (feed st1 frames).1 !! k
     = fragments (feed st2 (filter (fun raw => in_group k raw = true) frames)).1 !! k.
Proof.
  unfold outcomes_of.
  induction frames as [|raw frames IH]; intros st1 st2 He Hacc; [done|].
  rewrite feed_cons, filter_cons. simpl. rewrite filter_cons. simpl.
  destruct (decide (in_group k raw = true)) as [Hk|Hk];
    unfold in_group in Hk; rewrite bool_decide_eq_true in Hk.
  - rewrite feed_cons. simpl.
    destruct (handle_message_local st1 st2 raw k He Hk Hacc) as [Hr Hacc'].
    rewrite Hr.
    destruct (IH (handle_message st1 raw).1 (handle_message st2 raw).1) as [IH1 IH2];
      [by rewrite !handle_message_enable|done|].
    by rewrite IH1, IH2.
  - apply IH; [by rewrite !handle_message_enable|].
    by rewrite handle_message_other.
Qed.

(** ** Isolation of groups *)

(** C3: a frame addressed to group [B] leaves the accumulator of a distinct
    group [A] as it is; its outcome and what it leaves in [B]'s accumulator
    do not depend on anything in the state but [B]'s accumulator; and in any
    interleaving each group's outcomes and final accumulator are the ones
    its own frames produce when fed alone. *)
Theorem group_isolation (A B : hkey) (Hdistinct : A <> B) :
  (forall st raw,
     frame_key raw = Some B ->
     fragments (handle_message st raw).1 !! A = fragments st !! A)
  /\ (forall st1 st2 raw,
        enable_fragments st1 = enable_fragments st2 ->
        frame_key raw = Some B ->
        fragments st1 !! B = fragments st2 !! B ->
        (handle_message st1 raw).2 = (handle_message st2 raw).2
        /\ fragments (handle_message st1 raw).1 !! B
           = fragments (handle_message st2 raw).1 !! B)
  /\ (forall st frames,
        let only k := filter (fun raw => in_group k raw = true) frames in
        outcomes_of A frames (feed st frames).2 = (feed st (only A)).2
        /\ outcomes_of B frames (feed st frames).2 = (feed st (only B)).2
        /\ fragments (feed st frames).1 !! A = fragments (feed st (only A)).1 !! A
        /\ fragments (feed st frames).1 !! B = fragments (feed st (only B)).1 !! B).
Proof.
  split; [|split].
  - intros st raw HB. apply handle_message_other. congruence.
  - intros st1 st2 raw. apply handle_message_local.
  - intros st frames only.
    destruct (feed_projection A frames st st eq_refl eq_refl) as [? ?].
    by destruct (feed_projection B frames st st eq_refl eq_refl) as [? ?].
Qed.

(** ** The completion check *)

Lemma py_lt_num a b x y :
  as_num a = Some x -> as_num b = Some y -> py_lt a b = Return (x <? y).
Proof.
  destruct a as [|[]| | | |]; try done; destruct b as [|[]| | | |]; try done;
    simpl; intros; by simplify_eq.
Qed.

Lemma is_complete_num total t n :
  as_num total = Some t ->
  is_complete total n = Return ((0 <? t) && (t <=? Z.of_nat n)).
Proof.
  intros Ht. unfold is_complete, py_gt.
  rewrite (py_lt_num (PyInt 0) total 0 t eq_refl Ht). simpl.
  destruct (0 <? t); [|done]. unfold py_ge. simpl. by rewrite Ht.
Qed.

Lemma declared_total_absent d :
  dict_has d "total" = false ->
  dict_has d "total_fragments" = false ->
  dict_has d "count" = false ->
  declared_total d = PyInt 0.
Proof.
  unfold declared_total, dict_get_or, dict_has. intros H1 H2 H3.
  destruct (dict_get d "total"); [done|].
  destruct (dict_get d "total_fragments"); [done|].
  by destruct (dict_get d "count").
Qed.

Lemma group_step_wait acc d t :
  as_num (declared_total d) = Some t ->
  (0 <? t) && (t <=? Z.of_nat (length acc + 1)) = false ->
  group_step acc d = ((acc ++ [d])%list, Return PyNone).
Proof.
  intros Ht Hlt. unfold group_step.
  rewrite (is_complete_num _ t _ Ht), length_app.
  change (length [d]) with 1%nat. by rewrite Hlt.
Qed.

Lemma group_step_complete acc d t :
  as_num (declared_total d) = Some t ->
  (0 <? t) && (t <=? Z.of_nat (length acc + 1)) = true ->
  group_step acc d =
  match reconstruct_fragments (acc ++ [d]) with
  | Return reconstructed => ([], Return (of_optional reconstructed))
  | Raise e => ((acc ++ [d])%list, Raise e)
  end.
Proof.
  intros Ht Hlt. unfold group_step.
  rewrite (is_complete_num _ t _ Ht), length_app.
  change (length [d]) with 1%nat. by rewrite Hlt.
Qed.

Lemma acc_of_handle_message st raw k d :
  enable_fragments st = true ->
  json_loads raw = Some (PyDict d) ->
  frame_key raw = Some k ->
  fragments (handle_message st raw).1 !! k = Some (group_step (acc_of st k) d).1
  /\ (handle_message st raw).2 = (group_step (acc_of st k) d).2.
Proof.
  intros He Hd Hk. rewrite (handle_message_group st raw k d He Hd Hk). simpl.
  by rewrite lookup_insert_eq.
Qed.

(** C2 (as amended): the total that the completion check compares against
    is the one the arriving fragment states itself ([total], else
    [total_fragments], else [count], else 0); nothing is kept per group.  A
    fragment that states no total therefore never completes its group:
    [handle_message] returns [None] and the fragment is appended.  For a
    fragment stating the number [t], the group completes exactly when
    [0 < t <= count], whatever earlier fragments stated. *)
Theorem completion_reads_arriving_fragment
    (st : client) (raw : string) (k : hkey) (d : record)
    (Henable : enable_fragments st = true)
    (Hdecode : json_loads raw = Some (PyDict d))
    (Hgroup : frame_key raw = Some k) :
  let acc := (acc_of st k ++ [d])%list in
  (dict_has d "total" = false ->
   dict_has d "total_fragments" = false ->
   dict_has d "count" = false ->
   (handle_message st raw).2 = Return PyNone
   /\ fragments (handle_message st raw).1 !! k = Some acc)
  /\ (forall t, as_num (declared_total d) = Some t ->
        if (0 <? t) && (t <=? Z.of_nat (length acc))
        then (handle_message st raw).2
             = match reconstruct_fragments acc with
               | Return reconstructed => Return (of_optional reconstructed)
               | Raise e => Raise e
               end
        else (handle_message st raw).2 = Return PyNone
             /\ fragments (handle_message st raw).1 !! k = Some acc).
Proof.
  intros acc.
  destruct (acc_of_handle_message st raw k d Henable Hdecode Hgroup) as [Hacc Hres].
  rewrite Hacc, Hres.
  assert (Hlen : length acc = (length (acc_of st k) + 1)%nat)
    by (unfold acc; by rewrite length_app).
  split.
  - intros H1 H2 H3.
    rewrite (group_step_wait _ d 0); [done| |done].
    by rewrite (declared_total_absent d H1 H2 H3).
  - intros t Ht. rewrite Hlen.
    destruct ((0 <? t) && (t <=? Z.of_nat (length (acc_of st k) + 1))) eqn:Hc.
    + rewrite (group_step_complete _ d t Ht Hc). fold acc.
      by destruct (reconstruct_fragments acc).
    + by rewrite (group_step_wait _ d t Ht Hc).
Qed.

(** ** Incomplete groups *)

Lemma feed_waiting k frames : forall ds st,
  enable_fragments st = true ->
  arrival k frames ds ->
  (forall i d, ds !! i = Some d ->
     exists t, as_num (declared_total d) = Some t
               /\ Z.of_nat (length (acc_of st k) + i + 1) < t) ->
  (feed st frames).2 = replicate (length frames) (Return PyNone)
  /\ acc_of (feed st frames).1 k = (acc_of st k ++ ds)%list.
Proof.
  unfold arrival.
  induction frames as [|raw frames IH]; intros ds st He Hfr Htot.
  - apply Forall2_nil_inv_l in Hfr as ->. simpl. by rewrite app_nil_r.
  - apply Forall2_cons_inv_l in Hfr as (d & ds' & [Hd Hk] & Hfr & ->).
    rewrite feed_cons. simpl.
    destruct (acc_of_handle_message st raw k d He Hd Hk) as [Hacc Hres].
    destruct (Htot 0%nat d eq_refl) as (t & Ht & Hlt).
    assert (Hc : (0 <? t) && (t <=? Z.of_nat (length (acc_of st k) + 1)) = false).
    { apply andb_false_iff. right. apply Z.leb_gt. lia. }
    rewrite (group_step_wait _ d t Ht Hc) in Hacc, Hres.
    simpl in Hacc, Hres.
    assert (Hacc' : acc_of (handle_message st raw).1 k = (acc_of st k ++ [d])%list)
      by (unfold acc_of at 1; by rewrite Hacc).
    destruct (IH ds' (handle_message st raw).1) as (IH1 & IH2);
      [by rewrite handle_message_enable|done| |].
    { intros i d' Hd'. destruct (Htot (S i) d' Hd') as (t' & Ht' & Hlt').
      exists t'. split; [done|]. rewrite Hacc', length_app. simpl. lia. }
    by rewrite Hres, IH1, IH2, Hacc', <- app_assoc.
Qed.

(** C5: while the number of fragments ingested into a group, the arriving
    one included, is below the total that the arriving fragment declares,
    [handle_message] returns [None] for it; and after each ingestion the
    accumulator holds exactly the fragments ingested so far (after what it
    held before), so that for a new group its length is their number. *)
Theorem incomplete_group_waits
    (st : client) (k : hkey) (frames : list string) (ds : list record)
    (Henable : enable_fragments st = true)
    (Hframes : arrival k frames ds)
    (Hbelow : forall i d, ds !! i = Some d ->
       exists t, as_num (declared_total d) = Some t
                 /\ Z.of_nat (length (acc_of st k) + i + 1) < t) :
  (feed st frames).2 = replicate (length frames) (Return PyNone)
  /\ forall i,
       acc_of (feed st (take i frames)).1 k = (acc_of st k ++ take i ds)%list
       /\ (acc_of st k = [] ->
           (i <= length frames)%nat ->
           length (acc_of (feed st (take i frames)).1 k) = i).
Proof.
  split; [by apply (feed_waiting k frames ds)|].
  intros i.
  assert (Hacc : acc_of (feed st (take i frames)).1 k = (acc_of st k ++ take i ds)%list).
  { apply (feed_waiting k (take i frames) (take i ds) st Henable).
    - by apply Forall2_take.
    - intros j d Hd. apply lookup_take_Some in Hd as [Hd _]. by apply (Hbelow j). }
  split; [done|]. intros Hnil Hi. rewrite Hacc, Hnil. simpl.
  rewrite length_take. apply Forall2_length in Hframes. lia.
Qed.

(** ** Sorting by sequence key *)

Lemma bind_Return {A B} (r : result A) (k : A -> result B) b :
  bind r k = Return b -> exists a, r = Return a /\ k a = Return b.
Proof. destruct r as [a|e]; [|done]. simpl. by exists a. Qed.

Lemma insert_sorted_Permutation x l r :
  insert_sorted x l = Return r -> Permutation r (x :: l).
Proof.
  revert r. induction l as [|y l IH]; intros r; simpl.
  - by intros [= <-].
  - intros Hr. apply bind_Return in Hr as ([] & _ & Hr).
    + apply bind_Return in Hr as (r' & Hr' & [= <-]).
      rewrite (IH r' Hr'). apply perm_swap.
    + by injection Hr as <-.
Qed.

Lemma py_sorted_Permutation l s :
  py_sorted l = Return s -> Permutation s l.
Proof.
  revert s. induction l as [|x l IH]; intros s; simpl.
  - by intros [= <-].
  - intros Hs. apply bind_Return in Hs as (s' & Hs' & Hins).
    rewrite (insert_sorted_Permutation _ _ _ Hins). by rewrite (IH s' Hs').
Qed.

(** [<] returns only within one kind. *)
Lemma py_lt_kind a b c : py_lt a b = Return c -> kind_of a = kind_of b.
Proof. by destruct a as [|[]| | | |], b as [|[]| | | |]. Qed.

Lemma insert_sorted_head_kind x l r :
  insert_sorted x l = Return r ->
  match l with
  | [] => True
  | y :: _ => kind_of (sort_key y) = kind_of (sort_key x)
  end.
Proof.
  destruct l as [|y l]; [done|]. simpl. intros Hr.
  apply bind_Return in Hr as (c & Hc & _). by apply py_lt_kind in Hc.
Qed.

(** A sort that returns has met keys of one kind only. *)
Lemma py_sorted_one_kind l s :
  py_sorted l = Return s ->
  forall a b, a ∈ l -> b ∈ l -> kind_of (sort_key a) = kind_of (sort_key b).
Proof.
  revert s. induction l as [|x l IH]; intros s Hs a b Ha Hb.
  - by apply elem_of_nil in Ha.
  - simpl in Hs. apply bind_Return in Hs as (s' & Hs' & Hins).
    pose proof (py_sorted_Permutation _ _ Hs') as Hperm.
    pose proof (insert_sorted_head_kind _ _ _ Hins) as Hhead.
    assert (Hx : forall c, c ∈ l -> kind_of (sort_key c) = kind_of (sort_key x)).
    { intros c Hc. destruct s' as [|y s'].
      - apply Permutation_nil in Hperm. subst l. by apply elem_of_nil in Hc.
      - rewrite <- Hhead. apply (IH _ Hs'); [done|].
        rewrite <- Hperm. left. }
    apply elem_of_cons in Ha as [->|Ha], Hb as [->|Hb]; auto.
    + symmetry. auto.
    + by apply (IH _ Hs').
Qed.

(** The order of strings. *)
Lemma string_compare_le_trans a : forall b c,
  String.compare a b <> Gt -> String.compare b c <> Gt -> String.compare a c <> Gt.
Proof.
  induction a as [|x a IH]; intros [|y b] [|z c]; simpl; try done.
  unfold Ascii.compare.
  destruct (N.compare_spec (N_of_ascii x) (N_of_ascii y)) as [Hxy|Hxy|Hxy];
    destruct (N.compare_spec (N_of_ascii y) (N_of_ascii z)) as [Hyz|Hyz|Hyz];
    try done; intros Hab Hbc.
  - rewrite Hxy, Hyz, N.compare_refl. by apply (IH b c).
  - rewrite Hxy. by rewrite (proj2 (N.compare_lt_iff _ _) Hyz).
  - rewrite <- Hyz. by rewrite (proj2 (N.compare_lt_iff _ _) Hxy).
  - by rewrite (proj2 (N.compare_lt_iff _ _) (N.lt_trans _ _ _ Hxy Hyz)).
Qed.

Lemma string_ltb_asym a b : String.ltb a b = true -> String.ltb b a = false.
Proof.
  unfold String.ltb. rewrite (String.compare_antisym a b).
  by destruct (String.compare b a).
Qed.

Lemma string_ltb_le_trans a b c :
  String.ltb b a = false -> String.ltb c b = false -> String.ltb c a = false.
Proof.
  unfold String.ltb. intros Hab Hbc.
  assert (H1 : String.compare a b <> Gt).
  { rewrite (String.compare_antisym a b). by destruct (String.compare b a). }
  assert (H2 : String.compare b c <> Gt).
  { rewrite (String.compare_antisym b c). by destruct (String.compare c b). }
  pose proof (string_compare_le_trans a b c H1 H2) as H3.
  rewrite (String.compare_antisym c a). by destruct (String.compare a c).
Qed.

(** Within numbers and within strings [<] is a total order. *)
Lemma py_lt_total a b :
  kind_of a = kind_of b -> kind_of a = KindNum \/ kind_of a = KindStr ->
  exists c, py_lt a b = Return c.
Proof.
  destruct a as [|[]| | | |], b as [|[]| | | |]; try done;
    intros _ [?|?]; try done; simpl; eauto.
Qed.

Lemma py_lt_asym a b :
  kind_of a = KindNum \/ kind_of a = KindStr ->
  py_lt a b = Return true -> py_lt b a = Return false.
Proof.
  destruct a as [|[]| | | |], b as [|[]| | | |]; try done;
    intros [?|?]; try done; simpl; intros [= Hlt]; f_equal;
    try (apply Z.ltb_ge; apply Z.ltb_lt in Hlt; lia);
    by apply string_ltb_asym.
Qed.

Lemma py_lt_le_trans a b c :
  kind_of a = KindNum \/ kind_of a = KindStr ->
  py_lt b a = Return false -> py_lt c b = Return false -> py_lt c a = Return false.
Proof.
  intros Hk Hba Hcb.
  pose proof (py_lt_kind _ _ _ Hba) as Kba. pose proof (py_lt_kind _ _ _ Hcb) as Kcb.
  destruct Hk as [Hk|Hk]; rewrite Hk in Kba; rewrite Kba in Kcb.
  - assert (exists x, as_num a = Some x) as [x Hx] by (destruct a as [|[]| | | |]; by eauto).
    assert (exists y, as_num b = Some y) as [y Hy] by (destruct b as [|[]| | | |]; by eauto).
    assert (exists z, as_num c = Some z) as [z Hz] by (destruct c as [|[]| | | |]; by eauto).
    rewrite (py_lt_num _ _ _ _ Hy Hx) in Hba. rewrite (py_lt_num _ _ _ _ Hz Hy) in Hcb.
    rewrite (py_lt_num _ _ _ _ Hz Hx). f_equal.
    injection Hba as Hba. injection Hcb as Hcb.
    apply Z.ltb_ge. apply Z.ltb_ge in Hba, Hcb. lia.
  - destruct a; try done. destruct b; try done. destruct c; try done.
    simpl in *. f_equal. injection Hba as Hba. injection Hcb as Hcb.
    by eapply string_ltb_le_trans.
Qed.

Lemma insert_sorted_sorted x l :
  uniform_keys (x :: l) ->
  StronglySorted key_le l ->
  exists r, insert_sorted x l = Return r
            /\ Permutation r (x :: l) /\ StronglySorted key_le r.
Proof.
  intros Hu Hs.
  assert (Hk : forall a, a ∈ x :: l ->
    kind_of (sort_key a) = kind_of (sort_key x)
    /\ (kind_of (sort_key a) = KindNum \/ kind_of (sort_key a) = KindStr)).
  { intros a Ha. destruct Hu as [Hu|Hu]; rewrite Forall_forall in Hu;
      rewrite (Hu a Ha), (Hu x); auto; left. }
  clear Hu. induction l as [|y l IH].
  - exists [x]. repeat split; [done|]. repeat constructor.
  - simpl. apply StronglySorted_inv in Hs as [Hs Hy].
    destruct (Hk y) as [Kyx Ky]; [right; left|].
    destruct (py_lt_total (sort_key y) (sort_key x) Kyx Ky) as [c Hc].
    rewrite Hc. simpl. destruct c.
    + destruct IH as (r & Hr & Hperm & Hsorted); [done| |].
      { intros a Ha. apply Hk. apply elem_of_cons in Ha as [->|Ha]; [left|].
        right. by right. }
      rewrite Hr. simpl. exists (y :: r). split; [done|]. split.
      * rewrite Hperm. apply perm_swap.
      * constructor; [done|]. rewrite Hperm. constructor; [|done].
        by apply py_lt_asym.
    + exists (x :: y :: l). split; [done|]. split; [done|].
      constructor; [by constructor|]. constructor; [done|].
      rewrite Forall_forall in Hy |- *. intros z Hz.
      apply (py_lt_le_trans _ (sort_key y)); [|done|by apply Hy].
      apply (Hk x). left.
Qed.

(** With sequence keys all numbers or all strings the sort returns the
    fragments in ascending order of key. *)
Lemma py_sorted_sorted l :
  uniform_keys l ->
  exists s, py_sorted l = Return s /\ Permutation s l /\ StronglySorted key_le s.
Proof.
  induction l as [|x l IH]; intros Hu.
  - exists []. repeat split; [done|constructor].
  - destruct IH as (s & Hs & Hperm & Hsorted).
    { destruct Hu as [Hu|Hu]; [left|right]; by apply Forall_inv_tail in Hu. }
    destruct (insert_sorted_sorted x s) as (r & Hr & Hperm' & Hsorted'); [|done|].
    { unfold uniform_keys. by rewrite Hperm. }
    exists r. simpl. rewrite Hs. simpl. split; [done|]. split; [|done].
    by rewrite Hperm', Hperm.
Qed.

(** ** Reconstruction *)

Lemma py_or_truthy_r a b : py_truthy b = true -> py_truthy (py_or a b) = true.
Proof. unfold py_or. by destruct (py_truthy a) eqn:Ha. Qed.

(** The text taken from a fragment is never empty: the last alternative,
    the string form of the record, starts with a brace. *)
Lemma frag_text_truthy frag : py_truthy (frag_text frag) = true.
Proof. unfold frag_text. by do 4 apply py_or_truthy_r. Qed.

Lemma collect_texts_map l : collect_texts l = map content l.
Proof.
  induction l as [|frag l IH]; [done|].
  simpl. by rewrite frag_text_truthy, IH.
Qed.

Lemma reconstruct_fragments_sorted l s :
  l <> [] -> py_sorted l = Return s ->
  reconstruct_fragments l = Return (Some (join " " (map content s))).
Proof.
  intros Hl Hs. unfold reconstruct_fragments.
  destruct l as [|x l]; [done|]. rewrite Hs. simpl.
  rewrite collect_texts_map.
  destruct s as [|y s]; [|done].
  apply py_sorted_Permutation in Hs. by apply Permutation_nil_cons in Hs.
Qed.

Lemma reconstruct_fragments_Raise l e :
  l <> [] -> py_sorted l = Raise e -> reconstruct_fragments l = Raise e.
Proof.
  intros Hl Hs. unfold reconstruct_fragments.
  destruct l as [|x l]; [done|]. by rewrite Hs.
Qed.

(** Two ascending arrangements of the same fragments coincide when keys tie
    only between equal records. *)
Lemma sorted_unique l1 : forall l2,
  StronglySorted key_le l1 -> StronglySorted key_le l2 ->
  Permutation l1 l2 ->
  (forall a b, a ∈ l1 -> b ∈ l1 -> key_le a b -> key_le b a -> a = b) ->
  l1 = l2.
Proof.
  induction l1 as [|a l1 IH]; intros l2 Hs1 Hs2 Hperm Hanti.
  - by apply Permutation_nil in Hperm.
  - destruct l2 as [|b l2]; [by apply Permutation_sym, Permutation_nil_cons in Hperm|].
    apply StronglySorted_inv in Hs1 as [Hs1 Ha]. apply StronglySorted_inv in Hs2 as [Hs2 Hb].
    rewrite Forall_forall in Ha, Hb.
    assert (Hab : a = b).
    { assert (Hain : a ∈ b :: l2) by (rewrite <- Hperm; left).
      assert (Hbin : b ∈ a :: l1) by (rewrite Hperm; left).
      apply elem_of_cons in Hain as [?|Hain]; [done|].
      apply elem_of_cons in Hbin as [?|Hbin]; [done|].
      apply Hanti; [left|by right|by apply Ha|by apply Hb]. }
    subst b. f_equal. apply IH; [done|done|by apply Permutation_cons_inv in Hperm|].
    intros x y Hx Hy. apply Hanti; by right.
Qed.

(** A complete fragment set fed to a group that holds nothing. *)
Lemma feed_complete st k frames ds :
  enable_fragments st = true ->
  arrival k frames ds ->
  acc_of st k = [] ->
  ds <> [] ->
  (forall d, d ∈ ds -> as_num (declared_total d) = Some (Z.of_nat (length ds))) ->
  uniform_keys ds ->
  exists sorted,
    py_sorted ds = Return sorted
    /\ Permutation sorted ds
    /\ StronglySorted key_le sorted
    /\ (feed st frames).2
       = (replicate (length ds - 1) (Return PyNone)
          ++ [Return (PyStr (join " " (map content sorted)))])%list
    /\ fragments (feed st frames).1 !! k = Some [].
Proof.
  intros He Harr Hfresh Hne Htot Hkeys.
  destruct (py_sorted_sorted ds Hkeys) as (sorted & Hsorted & Hperm & Hss).
  exists sorted. do 3 (split; [done|]).
  destruct (exists_last Hne) as (ds0 & dl & ->).
  apply Forall2_app_inv_r in Harr as (frames0 & fl & Harr0 & Harrl & ->).
  apply Forall2_cons_inv_r in Harrl as (rawl & tl & [Hdl Hkl] & Hnil & ->).
  apply Forall2_nil_inv_r in Hnil as ->.
  rewrite length_app in *. simpl in *.
  replace (length ds0 + 1 - 1)%nat with (length ds0) by lia.
  destruct (feed_waiting k frames0 ds0 st He Harr0) as (Hw1 & Hw3).
  { intros i d Hd. exists (Z.of_nat (length ds0 + 1)). split.
    - apply Htot. apply elem_of_app. left. apply list_elem_of_lookup. by exists i.
    - apply lookup_lt_Some in Hd. rewrite Hfresh. simpl. lia. }
  rewrite Hfresh in Hw3. simpl in Hw3.
  rewrite feed_app, feed_cons. cbn [fst snd feed]. rewrite Hw1.
  rewrite (Forall2_length _ _ _ Harr0).
  set (st0 := (feed st frames0).1) in *.
  assert (He0 : enable_fragments st0 = true) by (unfold st0; by rewrite feed_enable).
  destruct (acc_of_handle_message st0 rawl k dl He0 Hdl Hkl) as [Hacc Hres].
  rewrite Hw3 in Hacc, Hres.
  rewrite (group_step_complete ds0 dl (Z.of_nat (length ds0 + 1))) in Hacc, Hres.
  - rewrite (reconstruct_fragments_sorted _ sorted) in Hacc, Hres by done.
    simpl in Hacc, Hres. by rewrite Hacc, Hres.
  - apply Htot. apply elem_of_app. right. left.
  - apply andb_true_iff. split; [apply Z.ltb_lt|apply Z.leb_le]; lia.
  - apply Htot. apply elem_of_app. right. left.
  - apply andb_true_iff. split; [apply Z.ltb_lt|apply Z.leb_le]; lia.
Qed.

(** C1 (as amended): a complete fragment set of one group, every fragment
    declaring the set's size as total, fed in any arrival order to a group
    that holds nothing, with fragment reconstruction enabled and sequence
    keys that are all numbers or all strings: [handle_message] returns
    [None] for all but the last fragment and, for the last, the extracted
    contents joined by a single space in ascending order of sequence key;
    the accumulator is then empty.  When keys tie only between equal
    records, every other arrival order of the same fragments produces the
    same outcomes. *)
Theorem complete_group_reconstructs
    (st : client) (k : hkey) (frames : list string) (ds : list record)
    (Henable : enable_fragments st = true)
    (Hframes : arrival k frames ds)
    (Hfresh : acc_of st k = [])
    (Hnonempty : ds <> [])
    (Htotal : forall d, d ∈ ds ->
       as_num (declared_total d) = Some (Z.of_nat (length ds)))
    (Hkeys : uniform_keys ds) :
  exists sorted,
    py_sorted ds = Return sorted
    /\ Permutation sorted ds
    /\ StronglySorted key_le sorted
    /\ (feed st frames).2
       = (replicate (length ds - 1) (Return PyNone)
          ++ [Return (PyStr (join " " (map content sorted)))])%list
    /\ fragments (feed st frames).1 !! k = Some []
    /\ forall frames' ds',
         arrival k frames' ds' ->
         Permutation ds' ds ->
         (forall a b, a ∈ ds -> b ∈ ds -> key_le a b -> key_le b a -> a = b) ->
         (feed st frames').2 = (feed st frames).2.
Proof.
  destruct (feed_complete st k frames ds) as (sorted & Hs & Hperm & Hss & Hfeed & Hacc);
    try done.
  exists sorted. do 5 (split; [done|]).
  intros frames' ds' Harr' Hperm' Hanti.
  destruct (feed_complete st k frames' ds') as (sorted' & Hs' & Hperm1 & Hss' & Hfeed' & _);
    try done.
  - intros ->. apply Permutation_nil in Hperm'. done.
  - intros d Hd. rewrite Hperm'. apply Htotal. by rewrite <- Hperm'.
  - unfold uniform_keys. by rewrite Hperm'.
  - assert (Heq : sorted' = sorted).
    { apply sorted_unique; [done|done|by rewrite Hperm1, Hperm', Hperm|].
      intros a b Ha Hb. apply Hanti; by rewrite <- Hperm', <- Hperm1. }
    by rewrite Hfeed, Hfeed', Heq, (Permutation_length Hperm').
Qed.

(** ** Keys that cannot be compared *)

(** The only exception [<] raises is [TypeError]. *)
Lemma py_lt_Raise : forall a b e, py_lt a b = Raise e -> e = TypeError.
Proof.
  fix IH 1. intros a b e.
  destruct a as [|[]|z|s|l|d], b as [|[]|z'|s'|l'|d']; simpl;
    try (by intros [= <-]); try done.
  revert l'. induction l as [|x l IHl]; intros [|y l']; try done.
  destruct (py_eq x y); [apply IHl|apply IH].
Qed.

Lemma insert_sorted_Raise x l e : insert_sorted x l = Raise e -> e = TypeError.
Proof.
  induction l as [|y l IHl]; simpl; [done|].
  destruct (py_lt (sort_key y) (sort_key x)) as [[]|e'] eqn:Hlt; simpl.
  - destruct (insert_sorted x l) as [r|e'']; simpl; [done|].
    intros [= <-]. by apply IHl.
  - done.
  - intros [= <-]. by apply py_lt_Raise in Hlt.
Qed.

Lemma py_sorted_Raise l e : py_sorted l = Raise e -> e = TypeError.
Proof.
  induction l as [|x l IHl]; simpl; [done|].
  destruct (py_sorted l) as [s|e']; simpl.
  - apply insert_sorted_Raise.
  - intros [= <-]. by apply IHl.
Qed.

Lemma run_Raise {world} (dispatch : world -> pyval -> world * dispatched)
    st w raw rest st' e :
  handle_message st raw = (st', Raise e) ->
  run world dispatch st w (raw :: rest) = (st', w, Crashed e).
Proof. intros Hm. simpl. by rewrite Hm. Qed.

(** C10: when the fragment that completes a group makes it hold two
    fragments whose sequence keys are of kinds that [<] does not compare (a
    number and a string, say), [reconstruct_fragments] raises [TypeError]
    from the sort; the exception leaves [handle_message] with the
    accumulator kept as it is, uncleared, and ends the session loop at this
    frame: nothing is dispatched for it and no later frame is read. *)
Theorem incomparable_keys_crash
    {world : Type} (dispatch : world -> pyval -> world * dispatched)
    (st : client) (raw : string) (k : hkey) (d f1 f2 : record)
    (Henable : enable_fragments st = true)
    (Hdecode : json_loads raw = Some (PyDict d))
    (Hgroup : frame_key raw = Some k)
    (Hcomplete : is_complete (declared_total d) (length (acc_of st k ++ [d])) = Return true)
    (Hf1 : f1 ∈ (acc_of st k ++ [d])%list)
    (Hf2 : f2 ∈ (acc_of st k ++ [d])%list)
    (Hkinds : kind_of (sort_key f1) <> kind_of (sort_key f2)) :
  reconstruct_fragments (acc_of st k ++ [d]) = Raise TypeError
  /\ (handle_message st raw).2 = Raise TypeError
  /\ fragments (handle_message st raw).1 !! k = Some (acc_of st k ++ [d])%list
  /\ forall w rest,
       run world dispatch st w (raw :: rest)
       = ((handle_message st raw).1, w, Crashed TypeError).
Proof.
  assert (Hne : (acc_of st k ++ [d])%list <> []) by (by destruct (acc_of st k)).
  assert (Hrec : reconstruct_fragments (acc_of st k ++ [d]) = Raise TypeError).
  { destruct (py_sorted (acc_of st k ++ [d])) as [s|e] eqn:Hs.
    - destruct Hkinds. by apply (py_sorted_one_kind _ _ Hs).
    - rewrite (py_sorted_Raise _ _ Hs) in Hs. by apply reconstruct_fragments_Raise. }
  destruct (acc_of_handle_message st raw k d Henable Hdecode Hgroup) as [Hacc Hres].
  unfold group_step in Hacc, Hres. rewrite Hcomplete, Hrec in Hacc, Hres.
  simpl in Hacc, Hres. do 3 (split; [done|]).
  intros w rest. apply run_Raise.
  rewrite <- Hres. by destruct (handle_message st raw).
Qed.

(** ** A completed group whose fragments give no text *)

(** Only the empty list yields [None]: a group that completes in
    [handle_message] holds the fragment just appended, so it always
    produces a text or raises. *)
Lemma reconstruct_fragments_None frags :
  reconstruct_fragments frags = Return None <-> frags = [].
Proof.
  split; [|by intros ->].
  destruct frags as [|frag frags]; [done|]. intros Hr.
  destruct (py_sorted (frag :: frags)) as [s|e] eqn:Hs.
  - by rewrite (reconstruct_fragments_sorted _ s) in Hr.
  - by rewrite (reconstruct_fragments_Raise _ e) in Hr.
Qed.


(** ** The life cycle of a group *)

(** A frame addressed to no group: its outcome is fixed by the frame and
    the switch, and it leaves every accumulator as it is. *)
Lemma handle_message_ungrouped st1 st2 raw :
  enable_fragments st1 = enable_fragments st2 ->
  frame_key raw = None ->
  (handle_message st1 raw).2 = (handle_message st2 raw).2.
Proof.
  intros He Hk. unfold handle_message, handle_data. unfold frame_key in Hk.
  destruct (json_loads raw) as [data|]; [|done]. simpl. rewrite <- He.
  destruct (enable_fragments st1); [|done].
  destruct (is_fragmented_message data) as [[]|] eqn:Hf; try done.
  unfold ingest. destruct data; try done.
  rewrite Hf in Hk. by rewrite Hk.
Qed.

(** Outcomes depend on the state through the accumulators' contents only:
    a key bound to the empty list and a key never seen are alike. *)
Lemma feed_same_groups frames : forall st1 st2,
  enable_fragments st1 = enable_fragments st2 ->
  (forall k, acc_of st1 k = acc_of st2 k) ->
  (feed st1 frames).2 = (feed st2 frames).2
  /\ forall k, acc_of (feed st1 frames).1 k = acc_of (feed st2 frames).1 k.
Proof.
  induction frames as [|raw frames IH]; intros st1 st2 He Hacc; [done|].
  rewrite !feed_cons. simpl.
  assert (Hstep : (handle_message st1 raw).2 = (handle_message st2 raw).2
    /\ forall k, acc_of (handle_message st1 raw).1 k = acc_of (handle_message st2 raw).1 k).
  { destruct (frame_key raw) as [k'|] eqn:Hk'.
    - destruct (enable_fragments st1) eqn:He1.
      + destruct (frame_key_inv _ _ Hk') as (d & Hd & _ & _).
        rewrite (handle_message_group st1 raw k' d He1 Hd Hk').
        rewrite (handle_message_group st2 raw k' d (eq_sym He) Hd Hk').
        simpl. rewrite (Hacc k'). split; [done|]. intros k. unfold acc_of. simpl.
        destruct (decide (k' = k)) as [->|Hne].
        * by rewrite !lookup_insert_eq.
        * rewrite !lookup_insert_ne by done. apply Hacc.
      + destruct (handle_message_off st1 raw He1) as [Hf1 ->].
        destruct (handle_message_off st2 raw (eq_sym He)) as [Hf2 ->].
        split; [done|]. intros k. unfold acc_of. rewrite Hf1, Hf2. apply Hacc.
    - split; [by apply handle_message_ungrouped|].
      intros k. unfold acc_of. rewrite !handle_message_other by congruence.
      apply Hacc. }
  destruct Hstep as [Hres Hacc'].
  destruct (IH (handle_message st1 raw).1 (handle_message st2 raw).1) as [IH1 IH2];
    [by rewrite !handle_message_enable|done|].
  by rewrite Hres, IH1.
Qed.

(** C4: a frame of group [k] for which [handle_message] returns either
    finds the group incomplete, returns [None] and leaves the accumulator
    with the fragment appended, or finds it complete, returns the text
    built from one arrangement of the accumulated fragments (each of them
    entering it once) and leaves the accumulator empty in the same call.
    Once the accumulator is empty, the frames that follow have the
    outcomes they would have had the group key never been seen. *)
Theorem accumulator_cleared_on_completion
    (st : client) (raw : string) (k : hkey) (d : record) (v : pyval)
    (Henable : enable_fragments st = true)
    (Hdecode : json_loads raw = Some (PyDict d))
    (Hgroup : frame_key raw = Some k)
    (Hreturns : (handle_message st raw).2 = Return v) :
  let acc := (acc_of st k ++ [d])%list in
  let st' := (handle_message st raw).1 in
  (is_complete (declared_total d) (length acc) = Return false
   /\ v = PyNone
   /\ fragments st' !! k = Some acc
   \/ exists sorted,
        is_complete (declared_total d) (length acc) = Return true
        /\ py_sorted acc = Return sorted
        /\ Permutation sorted acc
        /\ v = PyStr (join " " (map content sorted))
        /\ fragments st' !! k = Some [])
  /\ (fragments st' !! k = Some [] ->
      forall frames,
        (feed st' frames).2
        = (feed (set_fragments st' (delete k (fragments st'))) frames).2).
Proof.
  intros acc st'. split.
  - destruct (acc_of_handle_message st raw k d Henable Hdecode Hgroup) as [Hacc Hres].
    fold st' in Hacc. rewrite Hres in Hreturns. rewrite Hacc. clear Hacc Hres.
    unfold group_step in *. fold acc in Hreturns |- *.
    destruct (is_complete (declared_total d) (length acc)) as [[]|e]; [| |done].
    + right.
      assert (Hne : acc <> []) by (unfold acc; by destruct (acc_of st k)).
      destruct (py_sorted acc) as [sorted|e] eqn:Hs.
      * rewrite (reconstruct_fragments_sorted _ sorted Hne Hs) in Hreturns |- *.
        simpl in *. exists sorted. split; [done|]. split; [done|].
        split; [by apply py_sorted_Permutation|]. split; [congruence|done].
      * by rewrite (reconstruct_fragments_Raise _ e Hne Hs) in Hreturns.
    + left. simpl in *. split; [done|]. split; [congruence|done].
  - intros Hclear frames. apply feed_same_groups; [done|].
    intros k'. unfold acc_of. simpl.
    destruct (decide (k = k')) as [<-|Hne].
    + by rewrite Hclear, lookup_delete_eq.
    + by rewrite lookup_delete_ne.
Qed.

(** ** Frames that are not records *)

(** C6 (as amended): a frame on which [json.loads] raises
    [JSONDecodeError] is returned unchanged and leaves the client as it
    is.  A frame that [json.loads] decodes to a value that is no mapping is
    appended to the buffer; with reconstruction disabled, or when
    [is_fragmented_message] finds no indicator in it, [handle_message]
    returns the string form [str(data)] of the decoded value. *)
Theorem non_json_is_plain_text (st : client) (raw : string) :
  (json_loads raw = None -> handle_message st raw = (st, Return (PyStr raw)))
  /\ (forall data,
        json_loads raw = Some data ->
        (forall d, data <> PyDict d) ->
        enable_fragments st = false \/ is_fragmented_message data = Return false ->
        handle_message st raw = (buffer_append st data, Return (PyStr (py_str data)))).
Proof.
  unfold handle_message. split.
  - by intros ->.
  - intros data -> Hnd Hcase. unfold handle_data. simpl.
    assert (Hc : extract_content data = PyStr (py_str data)).
    { destruct data; try done. by destruct (Hnd d). }
    rewrite Hc. destruct Hcase as [->| ->]; [done|].
    by destruct (enable_fragments st).
Qed.

(** ** The reply of the backend *)

Lemma findall_no_open body s :
  has_open s = false -> forall skip, findall body skip s = [].
Proof.
  induction s as [|c s IH]; intros Hs skip; [done|].
  simpl in Hs. apply orb_false_iff in Hs as [Hc Hs].
  simpl. destruct skip; [|by apply IH]. rewrite Hc. by apply IH.
Qed.

Lemma re_sub_fence_no_open fence s :
  has_open s = false -> forall skip, has_open (re_sub_fence fence skip s) = false.
Proof.
  induction s as [|c s IH]; intros Hs skip; [done|].
  simpl in Hs. apply orb_false_iff in Hs as [Hc Hs].
  simpl. destruct skip; [|by apply IH].
  match goal with |- has_open (if ?b then _ else _) = _ => destruct b end;
    [by apply IH|].
  simpl. rewrite Hc. by apply IH.
Qed.

(** A reply without an opening brace is decided by the parse of the whole
    text alone, and whatever that parse gives is returned, a record or
    not. *)
Lemma extract_json_without_brace text :
  has_open text = false ->
  extract_json_from_text text
  = match json_loads (strip (re_sub_fence "```" 0 (re_sub_fence "```json" 0 text))) with
    | Some v => v
    | None => PyNone
    end.
Proof.
  intros Hno. unfold extract_json_from_text.
  destruct (json_loads _); [done|].
  by rewrite !findall_no_open by (by do 2 apply re_sub_fence_no_open).
Qed.

(** ** The message buffer *)

(** C9: every frame that parses as JSON is appended to [message_buffer] and
    nothing is ever removed: after any sequence of calls of
    [handle_message] the buffer is the initial one followed by the decoded
    value of each parseable frame, in order, so that from a new client its
    length is the number of parseable frames received. *)
Theorem message_buffer_append_only (st : client) (frames : list string) :
  message_buffer (feed st frames).1 = (message_buffer st ++ omap json_loads frames)%list
  /\ forall enable,
       length (message_buffer (feed (init enable) frames).1)
       = length (filter (fun raw => is_Some (json_loads raw)) frames).
Proof.
  assert (Hbuf : forall st0,
    message_buffer (feed st0 frames).1
    = (message_buffer st0 ++ omap json_loads frames)%list).
  { induction frames as [|raw frames IH]; intros st0.
    - simpl. by rewrite app_nil_r.
    - rewrite feed_cons. simpl. rewrite IH. unfold handle_message.
      destruct (json_loads raw) as [data|]; [|done].
      by rewrite handle_data_buffer, <- app_assoc. }
  split; [apply Hbuf|].
  intros enable. rewrite Hbuf. simpl. clear.
  induction frames as [|raw frames IH]; [done|].
  simpl. rewrite filter_cons.
  destruct (json_loads raw) as [data|]; simpl; [f_equal|]; exact IH.
Qed.

End Properties.

(** * Further properties *)

Section Further.

Context `{Runtime}.

(** ** What [is_fragmented_message] and [handle_message] raise *)

Lemma any_in_container data keys :
  is_container data = true -> exists b, any_in data keys = Return b.
Proof.
  intros Hc. induction keys as [|key keys [b IH]]; [by exists false|].
  simpl. destruct data; try done; simpl;
    match goal with |- context [if ?c then _ else _] => destruct c end; eauto.
Qed.

Lemma any_in_scalar data key keys :
  is_container data = false -> any_in data (key :: keys) = Raise TypeError.
Proof. by destruct data. Qed.

(** [key in data] is defined on a record, a string and an array only. *)
Lemma is_fragmented_message_cases (data : pyval) :
  match is_fragmented_message data with
  | Return _ => is_container data = true
  | Raise e => e = TypeError /\ is_container data = false
  end.
Proof.
  destruct (is_container data) eqn:Hc.
  - unfold is_fragmented_message.
    destruct (any_in_container data fragment_keys Hc) as [b1 ->].
    destruct (any_in_container data total_keys Hc) as [b2 ->]. simpl.
    destruct data; try done; simpl;
      repeat match goal with |- context [if ?c then _ else _] => destruct c; simpl end;
      done.
  - unfold is_fragmented_message, fragment_keys.
    by rewrite (any_in_scalar data _ _ Hc).
Qed.

(** X1: [is_fragmented_message] returns on every record, string and
    array, and raises [TypeError], never anything else, on every other
    value (a number, a boolean, null): [key in data] is undefined there. *)
Theorem is_fragmented_message_raises (data : pyval) :
  match is_fragmented_message data with
  | Return _ => is_container data = true
  | Raise e => e = TypeError /\ is_container data = false
  end.
Proof. apply is_fragmented_message_cases. Qed.

Lemma is_complete_Raise total n e : is_complete total n = Raise e -> e = TypeError.
Proof.
  unfold is_complete, py_gt, py_ge.
  destruct (py_lt (PyInt 0) total) as [[]|e'] eqn:Hlt; simpl.
  - destruct (as_num total); [done|]. by intros [= <-].
  - done.
  - intros [= <-]. by apply py_lt_Raise in Hlt.
Qed.

Lemma is_complete_not_num total n :
  as_num total = None -> is_complete total n = Raise TypeError.
Proof. by destruct total as [|[]| | | |]. Qed.

Lemma reconstruct_fragments_TypeError l e :
  reconstruct_fragments l = Raise e -> e = TypeError /\ py_sorted l = Raise TypeError.
Proof.
  unfold reconstruct_fragments. destruct l as [|x l]; [done|].
  destruct (py_sorted (x :: l)) as [s|e'] eqn:Hs; simpl.
  - by destruct (collect_texts s).
  - intros [= <-]. by rewrite (py_sorted_Raise _ _ Hs) in *.
Qed.

Lemma truthy_not_None v : py_truthy v = true -> v <> PyNone.
Proof. by intros Ht ->. Qed.

Lemma extract_content_not_None data : extract_content data <> PyNone.
Proof.
  destruct data; try done. unfold extract_content.
  apply truthy_not_None. by do 3 apply py_or_truthy_r.
Qed.

(** A frame addressed to no group, with reconstruction enabled. *)
Lemma handle_message_ungrouped_result st raw :
  enable_fragments st = true ->
  frame_key raw = None ->
  (handle_message st raw).2
  = match json_loads raw with
    | None => Return (PyStr raw)
    | Some data =>
        match is_fragmented_message data with
        | Raise e => Raise e
        | Return false => Return (extract_content data)
        | Return true =>
            match data with
            | PyDict _ => Raise TypeError
            | _ => Raise AttributeError
            end
        end
    end.
Proof.
  intros He Hk. unfold handle_message, handle_data. unfold frame_key in Hk.
  destruct (json_loads raw) as [data|]; [|done]. simpl. rewrite He.
  destruct (is_fragmented_message data) as [[]|] eqn:Hf; try done.
  unfold ingest. destruct data; try done.
  rewrite Hf in Hk. by rewrite Hk.
Qed.

(** With reconstruction disabled a call returns a value other than
    [None] and leaves the accumulators as they are. *)
Lemma handle_message_disabled st raw :
  enable_fragments st = false ->
  exists v, (handle_message st raw).2 = Return v
            /\ v <> PyNone
            /\ fragments (handle_message st raw).1 = fragments st.
Proof.
  intros Hdisabled.
  destruct (handle_message_off st raw Hdisabled) as [Hf Hr].
  rewrite Hr, Hf. destruct (json_loads raw) as [data|].
  - exists (extract_content data). split; [done|]. split; [|done].
    apply extract_content_not_None.
  - by exists (PyStr raw).
Qed.

(** X2: with reconstruction disabled [handle_message] leaves every
    accumulator as it is; for a frame that [json.loads] decodes it
    returns the content of the decoded value (lines 123-131), which is
    never [None], and it appends the value to the buffer; for a frame on
    which [json.loads] raises [JSONDecodeError] it returns the frame and
    changes nothing. *)
Theorem disabled_reconstruction_passes_through
    (st : client) (raw : string)
    (Hdisabled : enable_fragments st = false) :
  fragments (handle_message st raw).1 = fragments st
  /\ (forall data,
        json_loads raw = Some data ->
        handle_message st raw = (buffer_append st data, Return (extract_content data))
        /\ extract_content data <> PyNone)
  /\ (json_loads raw = None -> handle_message st raw = (st, Return (PyStr raw))).
Proof.
  split; [apply (handle_message_off st raw Hdisabled)|]. split.
  - intros data Hdata. split; [|apply extract_content_not_None].
    unfold handle_message, handle_data. rewrite Hdata. simpl. by rewrite Hdisabled.
  - intros Hnone. unfold handle_message. by rewrite Hnone.
Qed.

Lemma group_step_None acc d :
  (group_step acc d).2 = Return PyNone
  <-> is_complete (declared_total d) (length (acc ++ [d])) = Return false.
Proof.
  unfold group_step.
  destruct (is_complete (declared_total d) (length (acc ++ [d]))) as [[]|e]; simpl.
  - split; [|done].
    destruct (reconstruct_fragments (acc ++ [d])) as [[text|]|e] eqn:Hr; simpl; try done.
    apply reconstruct_fragments_None in Hr. by destruct acc.
  - done.
  - done.
Qed.

(** X3: [handle_message] returns [None] exactly when the frame is a
    fragment whose group is not yet complete: [None] always means "still
    waiting", a group that completes always yields a text. *)
Theorem None_means_waiting (st : client) (raw : string) :
  (handle_message st raw).2 = Return PyNone
  <-> enable_fragments st = true
      /\ exists k d,
           json_loads raw = Some (PyDict d)
           /\ frame_key raw = Some k
           /\ is_complete (declared_total d) (length (acc_of st k ++ [d])) = Return false.
Proof.
  split.
  - intros Hr. destruct (enable_fragments st) eqn:He.
    2: { destruct (handle_message_disabled st raw He) as (v & Hv & Hn & _).
         congruence. }
    split; [done|]. destruct (frame_key raw) as [k|] eqn:Hk.
    + destruct (frame_key_inv _ _ Hk) as (d & Hd & _ & _).
      exists k, d. do 2 (split; [done|]).
      rewrite (handle_message_group st raw k d He Hd Hk) in Hr.
      by apply group_step_None.
    + rewrite (handle_message_ungrouped_result st raw He Hk) in Hr.
      destruct (json_loads raw) as [data|]; [|done].
      destruct (is_fragmented_message data) as [[]|]; try done.
      * by destruct data.
      * injection Hr as Hr. by apply extract_content_not_None in Hr.
  - intros (He & k & d & Hd & Hk & Hc).
    rewrite (handle_message_group st raw k d He Hd Hk). by apply group_step_None.
Qed.

(** X4: [handle_message] raises [AttributeError] exactly when, with
    reconstruction enabled, the frame is JSON that is not a record and
    [is_fragmented_message] accepts it: a string that contains one of the
    indicator words, or an array that has one as an element. *)
Theorem AttributeError_on_non_record_fragment (st : client) (raw : string) :
  (handle_message st raw).2 = Raise AttributeError
  <-> enable_fragments st = true
      /\ exists data,
           json_loads raw = Some data
           /\ is_fragmented_message data = Return true
           /\ forall d, data <> PyDict d.
Proof.
  split.
  - intros Hr. destruct (enable_fragments st) eqn:He.
    2: { destruct (handle_message_disabled st raw He) as (v & Hv & _).
         congruence. }
    split; [done|]. destruct (frame_key raw) as [k|] eqn:Hk.
    + destruct (frame_key_inv _ _ Hk) as (d & Hd & _ & _).
      rewrite (handle_message_group st raw k d He Hd Hk) in Hr.
      unfold group_step in Hr.
      destruct (is_complete _ _) as [[]|e] eqn:Hc; simpl in Hr; try done.
      * destruct (reconstruct_fragments _) as [r|e] eqn:Hrec; [done|].
        simpl in Hr. apply reconstruct_fragments_TypeError in Hrec as [-> _]. done.
      * apply is_complete_Raise in Hc as ->. done.
    + rewrite (handle_message_ungrouped_result st raw He Hk) in Hr.
      destruct (json_loads raw) as [data|]; [|done]. exists data. split; [done|].
      pose proof (is_fragmented_message_cases data) as Hf.
      destruct (is_fragmented_message data) as [[]|e]; try done.
      * split; [done|]. intros d ->. done.
      * destruct Hf as [-> _]. done.
  - intros (He & data & Hd & Hf & Hnd).
    assert (Hk : frame_key raw = None).
    { unfold frame_key. rewrite Hd. destruct data; try done. by destruct (Hnd d). }
    rewrite (handle_message_ungrouped_result st raw He Hk), Hd, Hf.
    destruct data; try done. by destruct (Hnd d).
Qed.

(** X5: [handle_message] raises [TypeError] exactly when, with
    reconstruction enabled, the frame decodes to a number, a boolean or
    null, or to a record accepted as a fragment whose group identifier is
    unhashable (an array or an object), whose declared total is not a
    number, or whose group is complete while the sort of its fragments
    raises. *)
Theorem TypeError_causes (st : client) (raw : string) :
  (handle_message st raw).2 = Raise TypeError
  <-> enable_fragments st = true
      /\ exists data,
           json_loads raw = Some data
           /\ (is_container data = false
               \/ exists d,
                    data = PyDict d
                    /\ is_fragmented_message data = Return true
                    /\ (py_hash (fragment_id d) = None
                        \/ exists k,
                             py_hash (fragment_id d) = Some k
                             /\ (as_num (declared_total d) = None
                                 \/ is_complete (declared_total d)
                                      (length (acc_of st k ++ [d])) = Return true
                                    /\ py_sorted (acc_of st k ++ [d]) = Raise TypeError))).
Proof.
  split.
  - intros Hr. destruct (enable_fragments st) eqn:He.
    2: { destruct (handle_message_disabled st raw He) as (v & Hv & _).
         congruence. }
    split; [done|]. destruct (frame_key raw) as [k|] eqn:Hk.
    + destruct (frame_key_inv _ _ Hk) as (d & Hd & Hf & Hh).
      exists (PyDict d). split; [done|]. right. exists d. do 2 (split; [done|]).
      right. exists k. split; [done|].
      rewrite (handle_message_group st raw k d He Hd Hk) in Hr.
      unfold group_step in Hr.
      destruct (as_num (declared_total d)) as [t|] eqn:Ht; [|by left]. right.
      rewrite (is_complete_num _ t _ Ht) in Hr |- *.
      destruct ((0 <? t) && (t <=? Z.of_nat (length (acc_of st k ++ [d])))); [|done].
      split; [done|].
      destruct (reconstruct_fragments _) as [r|e] eqn:Hrec; [done|].
      by apply reconstruct_fragments_TypeError in Hrec as [_ ?].
    + rewrite (handle_message_ungrouped_result st raw He Hk) in Hr.
      unfold frame_key in Hk.
      destruct (json_loads raw) as [data|]; [|done]. exists data. split; [done|].
      pose proof (is_fragmented_message_cases data) as Hf.
      destruct (is_fragmented_message data) as [[]|e] eqn:Hfe; try done.
      * destruct data; try done. rewrite Hfe in Hk.
        right. exists d. do 2 (split; [done|]). by left.
      * left. by destruct Hf.
  - intros (He & data & Hd & [Hc|(d & -> & Hf & Hcase)]).
    + assert (Hk : frame_key raw = None).
      { unfold frame_key. rewrite Hd. by destruct data. }
      rewrite (handle_message_ungrouped_result st raw He Hk), Hd.
      pose proof (is_fragmented_message_cases data) as Hf.
      destruct (is_fragmented_message data) as [b|e]; [congruence|].
      by destruct Hf as [-> _].
    + destruct Hcase as [Hh|(k & Hh & Hcase)].
      * assert (Hk : frame_key raw = None) by (unfold frame_key; by rewrite Hd, Hf).
        by rewrite (handle_message_ungrouped_result st raw He Hk), Hd, Hf.
      * assert (Hk : frame_key raw = Some k) by (unfold frame_key; by rewrite Hd, Hf).
        rewrite (handle_message_group st raw k d He Hd Hk). unfold group_step.
        destruct Hcase as [Ht|[Hc Hs]].
        -- by rewrite (is_complete_not_num _ _ Ht).
        -- rewrite Hc. rewrite (reconstruct_fragments_Raise _ TypeError); [done| |done].
           by destruct (acc_of st k).
Qed.

(** ** Groups that never complete *)

(** X18: fragments that state no total, or a total that is zero or
    negative, never complete their group: each call returns [None] and the
    accumulator keeps every one of them, however many arrive. *)
Theorem totalless_group_never_completes
    (st : client) (k : hkey) (frames : list string) (ds : list record)
    (Henable : enable_fragments st = true)
    (Hframes : arrival k frames ds)
    (Htotal : forall d, d ∈ ds ->
       exists t, as_num (declared_total d) = Some t /\ t <= 0) :
  (feed st frames).2 = replicate (length frames) (Return PyNone)
  /\ acc_of (feed st frames).1 k = (acc_of st k ++ ds)%list.
Proof.
  revert ds st Henable Hframes Htotal. unfold arrival.
  induction frames as [|raw frames IH]; intros ds st He Hfr Htot.
  - apply Forall2_nil_inv_l in Hfr as ->. simpl. by rewrite app_nil_r.
  - apply Forall2_cons_inv_l in Hfr as (d & ds' & [Hd Hk] & Hfr & ->).
    rewrite feed_cons. simpl.
    destruct (acc_of_handle_message st raw k d He Hd Hk) as [Hacc Hres].
    destruct (Htot d) as (t & Ht & Hle); [left|].
    assert (Hc : (0 <? t) && (t <=? Z.of_nat (length (acc_of st k) + 1)) = false).
    { apply andb_false_iff. left. apply Z.ltb_ge. lia. }
    rewrite (group_step_wait _ d t Ht Hc) in Hacc, Hres.
    simpl in Hacc, Hres.
    assert (Hacc' : acc_of (handle_message st raw).1 k = (acc_of st k ++ [d])%list)
      by (unfold acc_of at 1; by rewrite Hacc).
    destruct (IH ds' (handle_message st raw).1) as (IH1 & IH2);
      [by rewrite handle_message_enable|done| |].
    { intros d' Hd'. apply Htot. by right. }
    by rewrite Hres, IH1, IH2, Hacc', <- app_assoc.
Qed.

(** ** Invariants of the client state *)

Lemma handle_message_buffer st raw :
  message_buffer (handle_message st raw).1
  = (message_buffer st ++ match json_loads raw with Some data => [data] | None => [] end)%list.
Proof.
  unfold handle_message. destruct (json_loads raw) as [data|].
  - apply handle_data_buffer.
  - simpl. by rewrite app_nil_r.
Qed.

(** What one call does to the table of accumulators. *)
Lemma handle_message_fragments st raw :
  fragments (handle_message st raw).1 = fragments st
  \/ exists k d,
       json_loads raw = Some (PyDict d)
       /\ frame_key raw = Some k
       /\ (fragments (handle_message st raw).1
           = <[k := (acc_of st k ++ [d])%list]> (fragments st)
           \/ fragments (handle_message st raw).1 = <[k := []]> (fragments st)).
Proof.
  destruct (enable_fragments st) eqn:He.
  2: { left. apply (handle_message_off st raw He). }
  destruct (frame_key raw) as [k|] eqn:Hk.
  - destruct (frame_key_inv _ _ Hk) as (d & Hd & _ & _).
    right. exists k, d. do 2 (split; [done|]).
    rewrite (handle_message_group st raw k d He Hd Hk). simpl.
    unfold group_step. destruct (is_complete _ _) as [[]|]; simpl; auto.
    destruct (reconstruct_fragments _); simpl; auto.
  - left. apply map_eq. intros k. apply handle_message_other. congruence.
Qed.

(** X6: a group key is never removed from the table of accumulators: it
    keeps every key it had, and holds the key of every fragment frame it
    was fed with reconstruction enabled, also after the group completed
    (the key is then bound to the empty list). *)
Theorem group_keys_are_kept (st : client) (frames : list string) :
  dom (fragments st) ⊆ dom (fragments (feed st frames).1)
  /\ forall raw k,
       enable_fragments st = true -> raw ∈ frames -> frame_key raw = Some k ->
       k ∈ dom (fragments (feed st frames).1).
Proof.
  assert (Hstep : forall st0 raw, dom (fragments st0) ⊆ dom (fragments (handle_message st0 raw).1)).
  { intros st0 raw.
    destruct (handle_message_fragments st0 raw) as [->|(k & d & _ & _ & [->| ->])];
      [done|rewrite dom_insert_L; set_solver..]. }
  assert (Hmono : forall frames0 st0, dom (fragments st0) ⊆ dom (fragments (feed st0 frames0).1)).
  { induction frames0 as [|raw frames0 IH]; intros st0; [done|].
    rewrite feed_cons. simpl. etrans; [apply (Hstep st0 raw)|apply IH]. }
  split; [apply Hmono|].
  revert st. induction frames as [|raw0 frames IH]; intros st raw k He Hin Hk.
  - by apply elem_of_nil in Hin.
  - rewrite feed_cons. simpl. apply elem_of_cons in Hin as [->|Hin].
    + apply (Hmono frames). destruct (frame_key_inv _ _ Hk) as (d & Hd & _ & _).
      rewrite (handle_message_group st raw0 k d He Hd Hk). simpl.
      rewrite dom_insert_L. set_solver.
    + apply (IH _ raw); [by rewrite handle_message_enable|done|done].
Qed.

Lemma accumulators_sound_step st raw :
  accumulators_sound st -> accumulators_sound (handle_message st raw).1.
Proof.
  intros Hinv k acc d Hacc Hd.
  assert (Hold : forall k' acc' d', fragments st !! k' = Some acc' -> d' ∈ acc' ->
    PyDict d' ∈ message_buffer (handle_message st raw).1
    /\ py_hash (fragment_id d') = Some k'
    /\ is_fragmented_message (PyDict d') = Return true).
  { intros k' acc' d' Hacc' Hd'. destruct (Hinv k' acc' d' Hacc' Hd') as (Hb & Hh & Hf).
    split; [|done]. rewrite handle_message_buffer. apply elem_of_app. by left. }
  destruct (handle_message_fragments st raw) as [Heq|(k0 & d0 & Hd0 & Hk0 & Hcase)].
  - rewrite Heq in Hacc. by apply (Hold k acc).
  - destruct (decide (k0 = k)) as [->|Hne].
    + destruct Hcase as [Heq|Heq]; rewrite Heq, lookup_insert_eq in Hacc;
        injection Hacc as <-; [|by apply elem_of_nil in Hd].
      apply elem_of_app in Hd as [Hd|Hd].
      * unfold acc_of in Hd. destruct (fragments st !! k) as [acc0|] eqn:Hacc0;
          [by apply (Hold k acc0)|by apply elem_of_nil in Hd].
      * apply list_elem_of_singleton in Hd as ->.
        destruct (frame_key_inv _ _ Hk0) as (d' & Hd' & Hf & Hh).
        assert (d' = d0) as -> by congruence.
        split; [|done]. rewrite handle_message_buffer, Hd0.
        apply elem_of_app. right. left.
    + destruct Hcase as [Heq|Heq]; rewrite Heq, lookup_insert_ne in Hacc by done;
        by apply (Hold k acc).
Qed.

Lemma accumulators_sound_feed frames : forall st,
  accumulators_sound st -> accumulators_sound (feed st frames).1.
Proof.
  induction frames as [|raw frames IH]; intros st Hinv; [done|].
  rewrite feed_cons. simpl. by apply IH, accumulators_sound_step.
Qed.

(** X7: from a new client and after any stream of frames, every fragment
    held in an accumulator is also in the message buffer, its group
    identifier hashes to the key it is stored under, and it is a record
    that [is_fragmented_message] accepts. *)
Theorem accumulators_stay_sound
    (enable : bool) (frames : list string) (k : hkey) (acc : list record) (d : record)
    (Hacc : fragments (feed (init enable) frames).1 !! k = Some acc)
    (Hd : d ∈ acc) :
  PyDict d ∈ message_buffer (feed (init enable) frames).1
  /\ py_hash (fragment_id d) = Some k
  /\ is_fragmented_message (PyDict d) = Return true.
Proof.
  assert (Hsound : accumulators_sound (feed (init enable) frames).1).
  { apply accumulators_sound_feed. intros k' acc' d' Hacc'.
    simpl in Hacc'. by rewrite lookup_empty in Hacc'. }
  by apply (Hsound k acc d).
Qed.

(** ** Arrival in order *)

Lemma py_sorted_of_sorted l :
  StronglySorted key_le l -> py_sorted l = Return l.
Proof.
  induction l as [|x l IH]; intros Hs; [done|].
  apply StronglySorted_inv in Hs as [Hs Hx].
  simpl. rewrite (IH Hs). simpl. destruct l as [|y l]; [done|].
  apply Forall_inv in Hx. unfold key_le in Hx. simpl. by rewrite Hx.
Qed.

(** X8: fragments that are already in ascending order of sequence key,
    ties included, are joined in the order they came in: the sort moves
    nothing.  In particular fragments without any of [sequence],
    [timestamp] and [index] (key 0 for all) keep their arrival order. *)
Theorem ordered_arrival_is_kept (frags : list record)
    (Hnonempty : frags <> [])
    (Hordered : StronglySorted key_le frags) :
  reconstruct_fragments frags = Return (Some (join " " (map content frags))).
Proof.
  apply reconstruct_fragments_sorted; [done|]. by apply py_sorted_of_sorted.
Qed.

Lemma keyless_fragments_ordered frags :
  Forall (fun d => sort_key d = PyInt 0) frags -> StronglySorted key_le frags.
Proof.
  induction 1 as [|d frags Hd Hall IH]; constructor; [done|].
  eapply Forall_impl; [exact Hall|]. intros d' Hd'. unfold key_le.
  by rewrite Hd, Hd'.
Qed.

(** ** The loop and the stream *)

(** X9: when no call of [handle_message] raises and the loop body always
    goes on, [run] ends on the closed stream with the client state that
    the calls alone produce, after handing to the loop body exactly the
    returned values other than [None], each once and in arrival order. *)
Theorem run_follows_feed
    {world : Type} (dispatch : world -> pyval -> world * dispatched)
    (st : client) (w : world) (frames : list string)
    (Hreturns : forall r, r ∈ (feed st frames).2 -> exists v, r = Return v)
    (Hcontinue : forall w' m, (dispatch w' m).2 = Continue) :
  run world dispatch st w frames
  = ((feed st frames).1,
     foldl (fun w' m => (dispatch w' m).1) w (messages_of (feed st frames).2),
     Closed).
Proof.
  assert (Hcontinue' : forall x, (exists w' m, x = dispatch w' m) -> x.2 = Continue)
    by (by intros x (w' & m & ->)).
  revert st w Hreturns. induction frames as [|raw frames IH]; intros st w Hreturns; [done|].
  rewrite feed_cons in Hreturns |- *. simpl in Hreturns |- *.
  destruct (Hreturns (handle_message st raw).2) as [v Hv]; [left|].
  destruct (handle_message st raw) as [st1 r]. simpl in *. subst r.
  assert (Hrest : forall r, r ∈ (feed st1 frames).2 -> exists v', r = Return v')
    by (intros r Hr; apply Hreturns; by right).
  destruct v; try by rewrite (IH st1 w Hrest).
  all: match goal with |- (let (_, _) := ?x in _) = _ =>
         pose proof (Hcontinue' x ltac:(eauto)) as Hc; destruct x as [w1 o] eqn:Hdis end;
    simpl in Hc |- *; subst o; rewrite Hdis; by rewrite (IH st1 w1 Hrest).
Qed.

(** X10: [run] reads no frame after the first one on which
    [handle_message] raises: whatever follows it in the stream, the session
    ends crashed with that exception, in the client state that call left
    and with only the earlier messages handed to the loop body. *)
Theorem run_stops_at_first_raise
    {world : Type} (dispatch : world -> pyval -> world * dispatched)
    (st : client) (w : world) (before : list string) (raw : string) (after : list string)
    (e : exn)
    (Hreturns : forall r, r ∈ (feed st before).2 -> exists v, r = Return v)
    (Hcontinue : forall w' m, (dispatch w' m).2 = Continue)
    (Hraises : (handle_message (feed st before).1 raw).2 = Raise e) :
  run world dispatch st w (before ++ raw :: after)
  = ((handle_message (feed st before).1 raw).1,
     foldl (fun w' m => (dispatch w' m).1) w (messages_of (feed st before).2),
     Crashed e).
Proof.
  assert (Hcontinue' : forall x, (exists w' m, x = dispatch w' m) -> x.2 = Continue)
    by (by intros x (w' & m & ->)).
  revert st w Hreturns Hraises.
  induction before as [|raw0 before IH]; intros st w Hreturns Hraises.
  - simpl in *. destruct (handle_message st raw) as [st1 r]. simpl in *. by subst r.
  - rewrite feed_cons in Hreturns, Hraises |- *. simpl in Hreturns, Hraises |- *.
    destruct (Hreturns (handle_message st raw0).2) as [v Hv]; [left|].
    destruct (handle_message st raw0) as [st1 r]. simpl in *. subst r.
    assert (Hrest : forall r, r ∈ (feed st1 before).2 -> exists v', r = Return v')
      by (intros r Hr; apply Hreturns; by right).
    destruct v; try by rewrite (IH st1 w Hrest Hraises).
    all: match goal with |- (let (_, _) := ?x in _) = _ =>
           pose proof (Hcontinue' x ltac:(eauto)) as Hc; destruct x as [w1 o] eqn:Hdis end;
      simpl in Hc |- *; subst o; rewrite Hdis; by rewrite (IH st1 w1 Hrest Hraises).
Qed.

(** ** The reply of the backend, when the whole text does not parse *)

Lemma first_dict_Some ms v :
  first_dict ms = Some v ->
  exists d m, v = PyDict d /\ m ∈ ms /\ json_loads m = Some (PyDict d).
Proof.
  induction ms as [|m ms IH]; [done|]. simpl.
  destruct (json_loads m) as [[| | | | |d]|] eqn:Hm;
    try (intros Hv; destruct (IH Hv) as (d' & m' & ? & ? & ?);
         exists d', m'; split; [done|]; split; [by right|done]).
  intros [= <-]. exists d, m. split; [done|]. split; [left|done].
Qed.

(** X11: once the parse of the whole cleaned text has failed,
    [extract_json_from_text] returns only [None] or a record, and the
    record is the decoding of one of the brace-delimited candidates found
    in the text: the two loops do check the type that the first step lets
    through. *)
Theorem candidates_yield_records_only (text : string)
    (Hfail : json_loads (strip (re_sub_fence "```" 0 (re_sub_fence "```json" 0 text))) = None) :
  let cleaned := re_sub_fence "```" 0 (re_sub_fence "```json" 0 text) in
  extract_json_from_text text = PyNone
  \/ exists d m,
       extract_json_from_text text = PyDict d
       /\ json_loads m = Some (PyDict d)
       /\ (m ∈ findall flat_body 0 cleaned \/ m ∈ findall (nested_body 0) 0 cleaned).
Proof.
  intros cleaned. unfold extract_json_from_text. fold cleaned. fold cleaned in Hfail.
  rewrite Hfail.
  destruct (first_dict (findall flat_body 0 cleaned)) as [v|] eqn:H1.
  - apply first_dict_Some in H1 as (d & m & -> & Hm & Hd). right. exists d, m. auto.
  - destruct (first_dict (findall (nested_body 0) 0 cleaned)) as [v|] eqn:H2; [|by left].
    apply first_dict_Some in H2 as (d & m & -> & Hm & Hd). right. exists d, m. auto.
Qed.

End Further.

(** ** [sanitize_for_display] *)

Section DisplayFacts.

Context {char : Type} (dot : char).

(** X12: for a bound that is not negative the displayed text is at most
    three characters longer than the bound, begins with the same
    characters as the text up to the bound, and is left as it is by a
    second pass. *)
Theorem sanitize_for_display_bounded (text : list char) (max_length : Z)
    (Hbound : 0 <= max_length) :
  Z.of_nat (length (sanitize_for_display dot text max_length)) <= max_length + 3
  /\ take (Z.to_nat max_length) (sanitize_for_display dot text max_length)
     = take (Z.to_nat max_length) text
  /\ sanitize_for_display dot (sanitize_for_display dot text max_length) max_length
     = sanitize_for_display dot text max_length.
Proof.
  unfold sanitize_for_display at 1 2 4 5.
  destruct (Z.of_nat (length text) <=? max_length) eqn:Hlen.
  - apply Z.leb_le in Hlen. split; [lia|]. split; [done|].
    unfold sanitize_for_display. by rewrite (proj2 (Z.leb_le _ _) Hlen).
  - apply Z.leb_gt in Hlen. unfold slice_to.
    rewrite (proj2 (Z.leb_le _ _) Hbound).
    assert (Htake : length (take (Z.to_nat max_length) text) = Z.to_nat max_length)
      by (rewrite length_take; lia).
    split; [rewrite length_app, Htake; simpl; lia|].
    split; [by rewrite take_app_length'|].
    unfold sanitize_for_display, slice_to.
    rewrite (proj2 (Z.leb_le _ _) Hbound).
    rewrite (proj2 (Z.leb_gt _ _)) by (rewrite length_app, Htake; simpl; lia).
    by rewrite take_app_length'.
Qed.

End DisplayFacts.

(** ** [validate_json_structure] *)

Lemma filter_absent_nil (d : record) (keys : list string) :
  filter (fun key => dict_has d key = false) keys = []
  <-> forall key, key ∈ keys -> dict_has d key = true.
Proof.
  induction keys as [|key keys IH].
  - split; [|done]. intros _ key Hin. by apply elem_of_nil in Hin.
  - rewrite filter_cons. destruct (decide (dict_has d key = false)) as [Hk|Hk].
    + split; [done|]. intros Hall. rewrite (Hall key) in Hk; [done|left].
    + rewrite IH. split.
      * intros Hall key' [->|Hin]%elem_of_cons; [|by apply Hall].
        by destruct (dict_has d key).
      * intros Hall key' Hin. apply Hall. by right.
Qed.

(** X13: [validate_json_structure] accepts exactly the records that have
    every required key (no required keys, or an empty list of them, asks
    for nothing), and it gives an error message exactly when it
    rejects. *)
Theorem validate_json_structure_accepts
    (data : pyval) (required_keys : option (list string)) :
  ((validate_json_structure data required_keys).1 = true
   <-> exists d, data = PyDict d
                 /\ forall key, key ∈ default [] required_keys -> dict_has d key = true)
  /\ ((validate_json_structure data required_keys).2 = None
      <-> (validate_json_structure data required_keys).1 = true).
Proof.
  unfold validate_json_structure.
  destruct data as [| | | | |d]; try (split; [split; [done|by intros (? & ? & _)]|done]).
  destruct required_keys as [[|key keys]|].
  - split; [|done]. split; [|done]. intros _. exists d. split; [done|].
    intros key Hin. by apply elem_of_nil in Hin.
  - pose proof (filter_absent_nil d (key :: keys)) as Hnil.
    destruct (filter (fun key0 => dict_has d key0 = false) (key :: keys)) as [|m ms].
    + split; [|done]. split; [|done]. intros _. exists d. split; [done|]. by apply Hnil.
    + split; [|done]. split; [done|]. intros (d' & [= <-] & Hall).
      by apply Hnil in Hall.
  - split; [|done]. split; [|done]. intros _. exists d. split; [done|].
    intros key Hin. by apply elem_of_nil in Hin.
Qed.

(** ** [test_connection] *)

Lemma prefix_refl s : String.prefix s s = true.
Proof.
  induction s as [|c s IH]; [done|]. simpl.
  by destruct (ascii_dec c c).
Qed.

Lemma str_contains_refl s : str_contains s s = true.
Proof.
  destruct s as [|c s]; [done|].
  change (String.prefix (String c s) (String c s) || str_contains (String c s) s = true).
  by rewrite prefix_refl.
Qed.

Lemma any_contains_strings model ss :
  any_contains model (map PyStr ss) = Return (existsb (str_contains model) ss).
Proof.
  induction ss as [|s ss IH]; [done|]. simpl.
  destruct (str_contains model s); [done|]. by rewrite IH.
Qed.

Lemma exact_name_is_contained model ss :
  existsb (fun name => py_eq name (PyStr model)) (map PyStr ss) = true ->
  existsb (str_contains model) ss = true.
Proof.
  induction ss as [|s ss IH]; [done|]. simpl.
  destruct (String.eqb_spec s model) as [->|Hne]; simpl.
  - by rewrite str_contains_refl.
  - intros Hex. rewrite (IH Hex). by destruct (str_contains model s).
Qed.

(** X14: when the endpoint answers 200 with a record whose models all
    carry a string name, [test_connection] succeeds exactly when some
    name contains the configured model name as a substring; the test for
    an equal name adds nothing to it. *)
Theorem test_connection_is_substring_search
    (model : string) (body : record) (names : list string)
    (Hnames : model_names (dict_get_or body "models" (PyList [])) = Return (map PyStr names)) :
  test_connection model (Some (200, PyDict body))
  = Return (existsb (str_contains model) names).
Proof.
  unfold test_connection. simpl. rewrite Hnames. simpl.
  destruct (existsb _ (map PyStr names)) eqn:Hex.
  - by rewrite (exact_name_is_contained _ _ Hex).
  - apply any_contains_strings.
Qed.

(** X15: a model entry without a name makes [test_connection] raise
    [TypeError], which it does not catch, as soon as the search reaches
    it: no name equals the model and none of the string names before the
    entry contains it. *)
Theorem test_connection_nameless_entry
    (model : string) (body : record) (before : list string) (after : list pyval)
    (Hnames : model_names (dict_get_or body "models" (PyList []))
              = Return (map PyStr before ++ PyNone :: after)%list)
    (Hexact : existsb (fun name => py_eq name (PyStr model))
                (map PyStr before ++ PyNone :: after) = false)
    (Hbefore : existsb (str_contains model) before = false) :
  test_connection model (Some (200, PyDict body)) = Raise TypeError.
Proof.
  unfold test_connection. simpl. rewrite Hnames. simpl. rewrite Hexact.
  clear Hnames Hexact. induction before as [|s before IH]; [done|].
  simpl in *. apply orb_false_iff in Hbefore as [-> Hbefore]. by apply IH.
Qed.

(** ** [Config] *)

(** X16: a configuration that [validate] accepts gives its direct prompt
    whenever it has one, without reading any file; [get_system_prompt]
    then returns an empty prompt only when the direct prompt is empty and
    the prompt file holds nothing but white space. *)
Theorem validated_prompt (read : string -> opened) (cls : config)
    (Hvalid : validate cls = (true, None)) :
  (SYSTEM_PROMPT cls <> EmptyString ->
   forall read', get_system_prompt read' cls = Prompt (SYSTEM_PROMPT cls))
  /\ (get_system_prompt read cls = Prompt EmptyString
      <-> SYSTEM_PROMPT cls = EmptyString
          /\ exists text, read (SYSTEM_PROMPT_FILE cls) = Content text
                          /\ strip text = EmptyString).
Proof.
  unfold validate in Hvalid. unfold get_system_prompt.
  destruct (String.eqb_spec (WEBSOCKET_URI cls) EmptyString) as [|Huri]; [done|].
  destruct (String.eqb_spec (SYSTEM_PROMPT cls) EmptyString) as [Hp|Hp]; simpl in *.
  - split; [done|].
    destruct (String.eqb_spec (SYSTEM_PROMPT_FILE cls) EmptyString) as [|Hf]; [done|].
    simpl. destruct (read (SYSTEM_PROMPT_FILE cls)) as [text| |].
    + split.
      * intros [= Hs]. split; [done|]. by exists text.
      * intros (_ & text' & [= <-] & ->). done.
    + split; [done|]. by intros (_ & text' & ? & _).
    + split; [done|]. by intros (_ & text' & ? & _).
  - split; [done|]. split; [|by intros [? _]].
    intros [= Hs]. by destruct Hp.
Qed.


(** ** Fenced replies *)

Section Fenced.

Context `{Runtime}.

Lemma space_width_open s : space_width (String "{" s) = 0%nat.
Proof. by destruct s as [|c1 [|c2 s]]. Qed.

Lemma space_width_close s : space_width (String "}" s) = 0%nat.
Proof. by destruct s as [|c1 [|c2 s]]. Qed.

Lemma re_sub_fence_cons fence c s :
  re_sub_fence fence 0 (String c s)
  = if String.prefix fence (String c s)
    then re_sub_fence fence
           (Nat.pred (String.length fence
                      + space_prefix 0 (drop_bytes (String.length fence) (String c s)))) s
    else String c (re_sub_fence fence 0 s).
Proof. done. Qed.

Lemma re_sub_fence_skip fence n c s :
  re_sub_fence fence (S n) (String c s) = re_sub_fence fence n s.
Proof. done. Qed.

Lemma prefix_backtick fence c s :
  Ascii.eqb c "`" = false -> String.prefix (String "`" fence) (String c s) = false.
Proof.
  intros Hc.
  change (String.prefix (String "`" fence) (String c s))
    with (match ascii_dec "`" c with left _ => String.prefix fence s | right _ => false end).
  destruct (ascii_dec "`" c) as [<-|]; [|done].
  by vm_compute in Hc.
Qed.

Lemma re_sub_fence_plain fence s tail :
  has_backtick s = false ->
  re_sub_fence (String "`" fence) 0 (s +:+ tail) = s +:+ re_sub_fence (String "`" fence) 0 tail.
Proof.
  intros Hs. induction s as [|c s IH]; [done|].
  simpl in Hs. apply orb_false_iff in Hs as [Hc Hs].
  change (String c s +:+ tail) with (String c (s +:+ tail)).
  rewrite re_sub_fence_cons, (prefix_backtick _ _ _ Hc). by rewrite (IH Hs).
Qed.

Lemma space_prefix_newline s :
  space_width s = 0%nat -> space_prefix 0 (newline +:+ s) = 1%nat.
Proof.
  intros Hs. change (newline +:+ s) with (String (ascii_of_nat 10) s).
  destruct s as [|c s]; [done|].
  change (space_prefix 0 (String (ascii_of_nat 10) (String c s)))
    with (S (space_prefix 0 (String c s))).
  cbn [space_prefix]. by rewrite Hs.
Qed.

Lemma step_a body tail :
  space_width (body +:+ tail) = 0%nat ->
  re_sub_fence "```json" 0 ("```json" +:+ newline +:+ body +:+ tail)
  = re_sub_fence "```json" 0 (body +:+ tail).
Proof.
  intros Hb.
  change ("```json" +:+ newline +:+ body +:+ tail)
    with (String "`" ("``json" +:+ newline +:+ (body +:+ tail))).
  rewrite re_sub_fence_cons.
  change (String.prefix "```json" (String "`" ("``json" +:+ newline +:+ (body +:+ tail)))) with true.
  cbv iota.
  change (drop_bytes (String.length "```json") (String "`" ("``json" +:+ newline +:+ (body +:+ tail))))
    with (newline +:+ (body +:+ tail)).
  rewrite (space_prefix_newline _ Hb).
  done.
Qed.

Lemma space_width_high c s j :
  space_width (String c s) = S j -> is_close c = false /\ high_prefix j s = true.
Proof.
  intros Hw. split.
  - destruct (is_close c) eqn:Hc; [|done].
    apply Ascii.eqb_eq in Hc as ->. by rewrite space_width_close in Hw.
  - unfold space_width in Hw. cbv zeta in Hw.
    destruct (_ || _)%bool in Hw; [by injection Hw as <-|].
    destruct s as [|c1 s1]; [done|].
    destruct (_ && _)%bool eqn:H2 in Hw.
    + injection Hw as <-. simpl.
      rewrite !andb_true_iff, !orb_true_iff, !N.eqb_eq in H2.
      rewrite andb_true_r. apply N.leb_le. lia.
    + destruct s1 as [|c2 s2]; [done|].
      destruct (_ || _)%bool eqn:H3 in Hw; [|done].
      injection Hw as <-. simpl.
      rewrite !orb_true_iff, !andb_true_iff, !orb_true_iff, !andb_true_iff,
        !N.eqb_eq, !N.leb_le in H3.
      rewrite andb_true_r, andb_true_iff, !N.leb_le. lia.
Qed.

Lemma space_prefix_close s : forall skip,
  high_prefix skip s = true -> has_close s = true ->
  (space_prefix skip s < String.length s)%nat.
Proof.
  induction s as [|c s IH]; intros skip Hh Hc; [done|].
  destruct skip as [|skip].
  - cbn [space_prefix].
    destruct (space_width (String c s)) as [|j] eqn:Hw; [simpl; lia|].
    apply space_width_high in Hw as [Hnc Hj].
    simpl in Hc. rewrite Hnc in Hc. simpl in Hc.
    specialize (IH j Hj Hc). simpl. lia.
  - cbn [space_prefix]. simpl in Hh. apply andb_true_iff in Hh as [Hhigh Hh].
    assert (Hnc : is_close c = false).
    { destruct (is_close c) eqn:Hcc; [|done]. apply Ascii.eqb_eq in Hcc as ->.
      by vm_compute in Hhigh. }
    simpl in Hc. rewrite Hnc in Hc. simpl in Hc.
    specialize (IH skip Hh Hc). simpl. lia.
Qed.

Lemma rstrip_close_newline s :
  rstrip (s +:+ "}" +:+ newline) = s +:+ "}".
Proof.
  induction s as [|c s IH]; [done|].
  change (String c s +:+ "}" +:+ newline) with (String c (s +:+ "}" +:+ newline)).
  cbn [rstrip].
  assert (Hlt : (space_prefix 0 (String c (s +:+ "}" +:+ newline))
                 < String.length (String c (s +:+ "}" +:+ newline)))%nat).
  { apply space_prefix_close; [done|]. simpl. apply orb_true_iff. right.
    clear. induction s as [|c' s IH]; [done|]. simpl. by rewrite IH, orb_true_r. }
  rewrite (proj2 (Nat.eqb_neq _ _)) by lia.
  by rewrite IH.
Qed.


Lemma lstrip_open s : lstrip (String "{" s) = String "{" s.
Proof. unfold lstrip. cbn [space_prefix]. by rewrite space_width_open. Qed.

Lemma tail_plain fence mid :
  has_backtick mid = false ->
  re_sub_fence (String "`" fence) 0 ("{" +:+ mid +:+ "}" +:+ newline +:+ "```")
  = "{" +:+ mid +:+ "}" +:+ newline +:+ re_sub_fence (String "`" fence) 0 "```".
Proof.
  intros Hmid.
  rewrite (re_sub_fence_plain fence "{") by done.
  rewrite (re_sub_fence_plain fence mid) by done.
  rewrite (re_sub_fence_plain fence "}") by done.
  by rewrite (re_sub_fence_plain fence newline) by done.
Qed.

Lemma untagged_first_pass rest :
  re_sub_fence "```json" 0 ("```" +:+ newline +:+ rest)
  = "```" +:+ newline +:+ re_sub_fence "```json" 0 rest.
Proof.
  change ("```" +:+ newline +:+ rest)
    with (String "`" (String "`" (String "`" (String (ascii_of_nat 10) rest)))).
  rewrite re_sub_fence_cons.
  change (String.prefix "```json"
            (String "`" (String "`" (String "`" (String (ascii_of_nat 10) rest)))))
    with false. cbv iota.
  rewrite re_sub_fence_cons.
  change (String.prefix "```json" (String "`" (String "`" (String (ascii_of_nat 10) rest))))
    with false. cbv iota.
  rewrite re_sub_fence_cons.
  change (String.prefix "```json" (String "`" (String (ascii_of_nat 10) rest)))
    with false. cbv iota.
  rewrite re_sub_fence_cons.
  change (String.prefix "```json" (String (ascii_of_nat 10) rest)) with false.
  done.
Qed.

Lemma step_b body tail :
  space_width (body +:+ tail) = 0%nat ->
  re_sub_fence "```" 0 ("```" +:+ newline +:+ body +:+ tail)
  = re_sub_fence "```" 0 (body +:+ tail).
Proof.
  intros Hb.
  change ("```" +:+ newline +:+ body +:+ tail)
    with (String "`" ("``" +:+ newline +:+ (body +:+ tail))).
  rewrite re_sub_fence_cons.
  change (String.prefix "```" (String "`" ("``" +:+ newline +:+ (body +:+ tail)))) with true.
  cbv iota.
  change (drop_bytes (String.length "```") (String "`" ("``" +:+ newline +:+ (body +:+ tail))))
    with (newline +:+ (body +:+ tail)).
  rewrite (space_prefix_newline _ Hb).
  done.
Qed.

(** X17: a reply that consists of a fenced block, tagged [json] or not,
    holding on its own line a brace-delimited text without backticks that
    parses as JSON, yields the parsed value: both fences and the line
    feeds around the text are removed before the parse. *)
Theorem fenced_reply_is_recovered (mid : string) (v : pyval)
    (Hmid : has_backtick mid = false)
    (Hparse : json_loads ("{" +:+ mid +:+ "}") = Some v) :
  extract_json_from_text
    ("```json" +:+ newline +:+ "{" +:+ mid +:+ "}" +:+ newline +:+ "```") = v
  /\ extract_json_from_text
       ("```" +:+ newline +:+ "{" +:+ mid +:+ "}" +:+ newline +:+ "```") = v.
Proof.
  assert (Hstrip : strip ("{" +:+ mid +:+ "}" +:+ newline) = "{" +:+ mid +:+ "}").
  { unfold strip. change ("{" +:+ mid +:+ "}" +:+ newline)
      with (String "{" (mid +:+ "}" +:+ newline)).
    rewrite lstrip_open. apply (rstrip_close_newline (String "{" mid)). }
  split; unfold extract_json_from_text.
  - rewrite (step_a "{" (mid +:+ "}" +:+ newline +:+ "```")) by apply space_width_open.
    rewrite (tail_plain "``json" mid Hmid).
    change (re_sub_fence "```json" 0 "```") with "```".
    rewrite (tail_plain "``" mid Hmid).
    change (re_sub_fence "```" 0 "```") with EmptyString.
    change (newline +:+ EmptyString) with newline.
    by rewrite Hstrip, Hparse.
  - rewrite untagged_first_pass.
    rewrite (tail_plain "``json" mid Hmid).
    change (re_sub_fence "```json" 0 "```") with "```".
    rewrite (step_b "{" (mid +:+ "}" +:+ newline +:+ "```")) by apply space_width_open.
    rewrite (tail_plain "``" mid Hmid).
    change (re_sub_fence "```" 0 "```") with EmptyString.
    change (newline +:+ EmptyString) with newline.
    by rewrite Hstrip, Hparse.
Qed.

End Fenced.

(** * Worked scenarios *)

Section Scenarios.

#[local] Existing Instance worked.

(** The end-to-end scenario of C1: fragments 1, 3, 2 of group [g1] arriving
    in that order yield nothing twice and then the text [a b c]. *)
Lemma end_to_end_scenario :
  (feed (init true) [frame (PyDict frag_a); frame (PyDict frag_c); frame (PyDict frag_b)]).2
  = [Return PyNone; Return PyNone; Return (PyStr "a b c")].
Proof.
  destruct (complete_group_reconstructs (init true) (KStr "g1")
              [frame (PyDict frag_a); frame (PyDict frag_c); frame (PyDict frag_b)]
              [frag_a; frag_c; frag_b])
    as (sorted & Hsorted & _ & _ & Hfeed & _).
  - reflexivity.
  - arrives.
  - reflexivity.
  - discriminate.
  - intros d Hd. in_list Hd; reflexivity.
  - left. repeat constructor.
  - vm_compute in Hsorted. injection Hsorted as <-. exact Hfeed.
Defined.

(** C1, the claim refuted: the two fragments of group [g4] form a complete
    set, both declare the total 2 and the group holds nothing, but one is
    keyed by an integer sequence and the other by a string timestamp; the
    second call raises [TypeError] where the claim has a reconstructed
    message. *)
Lemma mixed_keys_complete_set_raises :
  arrival (KStr "g4") [frame (PyDict frag_seq); frame (PyDict frag_stamp)]
    [frag_seq; frag_stamp]
  /\ declared_total frag_seq = PyInt 2
  /\ declared_total frag_stamp = PyInt 2
  /\ acc_of (init true) (KStr "g4") = []
  /\ sort_key frag_seq = PyInt 1
  /\ sort_key frag_stamp = PyStr "t2"
  /\ (feed (init true) [frame (PyDict frag_seq); frame (PyDict frag_stamp)]).2
     = [Return PyNone; Raise TypeError].
Proof. split; [arrives|]. repeat split; by vm_compute. Qed.

(** C2, the claim refuted: the first fragment of group [g3] declares the
    total 2 and the second, which states none, is the second to arrive;
    the group does not complete: both calls return [None] and both
    fragments stay in the accumulator. *)
Lemma declared_total_not_remembered :
  declared_total frag_first = PyInt 2
  /\ dict_has frag_untotalled "total" = false
  /\ dict_has frag_untotalled "total_fragments" = false
  /\ dict_has frag_untotalled "count" = false
  /\ frame_key (frame (PyDict frag_first)) = Some (KStr "g3")
  /\ frame_key (frame (PyDict frag_untotalled)) = Some (KStr "g3")
  /\ (feed (init true) [frame (PyDict frag_first); frame (PyDict frag_untotalled)]).2
     = [Return PyNone; Return PyNone]
  /\ fragments
       (feed (init true) [frame (PyDict frag_first); frame (PyDict frag_untotalled)]).1
     !! KStr "g3" = Some [frag_first; frag_untotalled].
Proof. repeat split; by vm_compute. Qed.

(** C2 as amended, on the same frames: the fragment without a total waits. *)
Lemma untotalled_fragment_waits :
  let st := (handle_message (init true) (frame (PyDict frag_first))).1 in
  (handle_message st (frame (PyDict frag_untotalled))).2 = Return PyNone
  /\ fragments (handle_message st (frame (PyDict frag_untotalled))).1 !! KStr "g3"
     = Some [frag_first; frag_untotalled].
Proof.
  intros st.
  destruct (completion_reads_arriving_fragment st
              (frame (PyDict frag_untotalled)) (KStr "g3") frag_untotalled)
    as [Hwait _]; [reflexivity..|].
  apply Hwait; reflexivity.
Defined.

(** C3 on two interleaved groups: the outcomes of [g1]'s frames within the
    interleaving are those of [g1]'s frames alone. *)
Lemma interleaved_groups :
  let frames := [frame (PyDict frag_a); frame (PyDict frag_x); frame (PyDict frag_c);
                 frame (PyDict frag_w); frame (PyDict frag_b)] in
  KStr "g1" <> KStr "g2"
  /\ outcomes_of (KStr "g1") frames (feed (init true) frames).2
     = (feed (init true)
          [frame (PyDict frag_a); frame (PyDict frag_c); frame (PyDict frag_b)]).2
  /\ outcomes_of (KStr "g2") frames (feed (init true) frames).2
     = (feed (init true) [frame (PyDict frag_x); frame (PyDict frag_w)]).2.
Proof.
  intros frames.
  assert (Hdistinct : KStr "g1" <> KStr "g2") by discriminate.
  split; [exact Hdistinct|].
  destruct (group_isolation (KStr "g1") (KStr "g2") Hdistinct) as (_ & _ & Hfeed).
  destruct (Hfeed (init true) frames) as (H1 & H2 & _).
  split; [exact H1|exact H2].
Defined.

(** C4 on the completing frame of the end-to-end scenario. *)
Lemma completion_clears_g1 :
  let st := (feed (init true) [frame (PyDict frag_a); frame (PyDict frag_c)]).1 in
  let st' := (handle_message st (frame (PyDict frag_b))).1 in
  fragments st !! KStr "g1" = Some [frag_a; frag_c]
  /\ fragments st' !! KStr "g1" = Some []
  /\ forall frames,
       (feed st' frames).2
       = (feed (set_fragments st' (delete (KStr "g1") (fragments st'))) frames).2.
Proof.
  intros st st'. split; [reflexivity|]. split; [reflexivity|].
  destruct (accumulator_cleared_on_completion st (frame (PyDict frag_b))
              (KStr "g1") frag_b (PyStr "a b c"))
    as [_ Hfresh]; [reflexivity..|].
  apply Hfresh. reflexivity.
Defined.

(** C5 on the first two fragments of the end-to-end scenario. *)
Lemma two_of_three_wait :
  (feed (init true) [frame (PyDict frag_a); frame (PyDict frag_c)]).2
  = [Return PyNone; Return PyNone].
Proof.
  destruct (incomplete_group_waits (init true) (KStr "g1")
              [frame (PyDict frag_a); frame (PyDict frag_c)] [frag_a; frag_c])
    as [Hwait _].
  - reflexivity.
  - arrives.
  - intros i d Hd. exists 3.
    destruct i as [|[|i]]; simpl in Hd; [| |done];
      injection Hd as <-; split; first [reflexivity|simpl; lia].
  - exact Hwait.
Defined.

(** C6, the claim refuted: the frames [[1,2]] and ["hello"] are JSON but no
    mapping, and [handle_message] returns [[1, 2]] and [hello], neither of
    which is the frame. *)
Lemma json_value_not_returned_raw :
  json_loads (frame json_array) = Some json_array
  /\ (handle_message (init true) (frame json_array)).2 = Return (PyStr "[1, 2]")
  /\ frame json_array <> "[1, 2]"
  /\ json_loads (frame json_string) = Some json_string
  /\ (handle_message (init true) (frame json_string)).2 = Return (PyStr "hello")
  /\ frame json_string <> "hello".
Proof. repeat split; by vm_compute. Qed.

(** A bare number, with reconstruction enabled: [key in data] is not
    defined on an int, and the call raises after the buffer has grown. *)
Lemma bare_number_raises :
  (handle_message (init true) (frame json_number)).2 = Raise TypeError
  /\ message_buffer (handle_message (init true) (frame json_number)).1 = [json_number]
  /\ (handle_message (init false) (frame json_number)).2 = Return (PyStr "42").
Proof. repeat split; by vm_compute. Qed.

(** C7 at the failing input: the backend answers [42], a text with no
    brace that parses as JSON; [extract_json_from_text] returns the number
    and [process_message] passes it on as the reply. *)
Lemma non_record_reply_is_returned :
  query_llm "ping" = Some "42"
  /\ has_open "42" = false
  /\ json_loads "42" = Some (PyInt 42)
  /\ extract_json_from_text "42" = PyInt 42
  /\ process_message "ping" = PyInt 42.
Proof. repeat split; by vm_compute. Qed.

(** C10 on group [g4]: an integer sequence and a string timestamp. *)
Lemma mixed_keys_end_the_session :
  let st := (handle_message (init true) (frame (PyDict frag_seq))).1 in
  (handle_message st (frame (PyDict frag_stamp))).2 = Raise TypeError
  /\ fragments (handle_message st (frame (PyDict frag_stamp))).1 !! KStr "g4"
     = Some [frag_seq; frag_stamp]
  /\ forall rest,
       (run unit reply_and_continue st tt (frame (PyDict frag_stamp) :: rest)).2
       = Crashed TypeError.
Proof.
  intros st.
  destruct (incomparable_keys_crash reply_and_continue st (frame (PyDict frag_stamp))
              (KStr "g4") frag_stamp frag_seq frag_stamp)
    as (_ & Hres & Hacc & Hrun).
  - reflexivity.
  - reflexivity.
  - reflexivity.
  - reflexivity.
  - left.
  - right. left.
  - discriminate.
  - split; [exact Hres|]. split; [exact Hacc|].
    intros rest. by rewrite Hrun.
Defined.

End Scenarios.

(** * Scenarios of the further properties *)

Section FurtherScenarios.

#[local] Existing Instance worked2.

(** X2 on a fragment frame fed to a client with reconstruction disabled. *)
Lemma disabled_client_passes_fragment :
  handle_message (init false) (frame (PyDict frag_a))
  = (buffer_append (init false) (PyDict frag_a), Return (PyStr "a")).
Proof.
  destruct (disabled_reconstruction_passes_through (init false) (frame (PyDict frag_a)))
    as (_ & Hdecoded & _); [reflexivity|].
  destruct (Hdecoded (PyDict frag_a)) as [Hcall _]; [reflexivity|].
  exact Hcall.
Defined.

(** X7 after two of the three fragments of [g1]. *)
Lemma held_fragment_is_sound :
  PyDict frag_c
    ∈ message_buffer (feed (init true) [frame (PyDict frag_a); frame (PyDict frag_c)]).1
  /\ py_hash (fragment_id frag_c) = Some (KStr "g1")
  /\ is_fragmented_message (PyDict frag_c) = Return true.
Proof.
  apply (accumulators_stay_sound true [frame (PyDict frag_a); frame (PyDict frag_c)]
           (KStr "g1") [frag_a; frag_c] frag_c).
  - reflexivity.
  - right. left.
Defined.

(** X8 on the three fragments of [g1] in the order of their sequence. *)
Lemma ordered_fragments_joined :
  reconstruct_fragments [frag_a; frag_b; frag_c] = Return (Some "a b c").
Proof.
  apply (ordered_arrival_is_kept [frag_a; frag_b; frag_c]).
  - discriminate.
  - repeat constructor.
Defined.

(** X9 on the end-to-end stream: one message reaches the loop body. *)
Lemma loop_receives_one_message :
  run (list pyval) record_message (init true) []
    [frame (PyDict frag_a); frame (PyDict frag_c); frame (PyDict frag_b)]
  = ((feed (init true)
        [frame (PyDict frag_a); frame (PyDict frag_c); frame (PyDict frag_b)]).1,
     [PyStr "a b c"], Closed).
Proof.
  rewrite (run_follows_feed record_message (init true) []
             [frame (PyDict frag_a); frame (PyDict frag_c); frame (PyDict frag_b)]).
  - reflexivity.
  - intros r Hr. vm_compute in Hr. in_list Hr; eauto.
  - reflexivity.
Defined.

(** X10: a bare number between two fragments ends the session. *)
Lemma number_ends_the_session :
  run (list pyval) record_message (init true) []
    [frame (PyDict plain_record); frame json_number; frame (PyDict frag_c)]
  = ((feed (init true) [frame (PyDict plain_record); frame json_number]).1,
     [PyStr "hello"], Crashed TypeError).
Proof.
  rewrite (run_stops_at_first_raise record_message (init true) []
             [frame (PyDict plain_record)] (frame json_number) [frame (PyDict frag_c)]
             TypeError).
  - reflexivity.
  - intros r Hr. vm_compute in Hr. in_list Hr; eauto.
  - reflexivity.
  - reflexivity.
Defined.

(** X11 on a reply that wraps a record in prose. *)
Lemma prose_reply_yields_record :
  extract_json_from_text ("Here: " +:+ json_text (PyDict reply_record)) = PyNone
  \/ exists d m,
       extract_json_from_text ("Here: " +:+ json_text (PyDict reply_record)) = PyDict d
       /\ json_loads m = Some (PyDict d)
       /\ (m ∈ findall flat_body 0
                 (re_sub_fence "```" 0
                    (re_sub_fence "```json" 0
                       ("Here: " +:+ json_text (PyDict reply_record))))
           \/ m ∈ findall (nested_body 0) 0
                    (re_sub_fence "```" 0
                       (re_sub_fence "```json" 0
                          ("Here: " +:+ json_text (PyDict reply_record))))).
Proof.
  apply (candidates_yield_records_only ("Here: " +:+ json_text (PyDict reply_record))).
  reflexivity.
Defined.

(** X12 on a text of six characters and the bound 2. *)
Lemma display_of_six_characters :
  sanitize_for_display "."%char ["a"; "b"; "c"; "d"; "e"; "f"]%char 2
  = ["a"; "b"; "."; "."; "."]%char
  /\ Z.of_nat (length (sanitize_for_display "."%char ["a"; "b"; "c"; "d"; "e"; "f"]%char 2))
     <= 2 + 3.
Proof.
  split; [reflexivity|].
  apply (sanitize_for_display_bounded "."%char ["a"; "b"; "c"; "d"; "e"; "f"]%char 2).
  lia.
Defined.

(** X14: the model [llama3] is found in the installed [llama3.1:8b]. *)
Lemma shorter_model_name_is_found :
  test_connection "llama3"
    (Some (200, PyDict [("models", PyList [PyDict [("name", PyStr "llama3.1:8b")]])]))
  = Return true.
Proof.
  apply (test_connection_is_substring_search "llama3"
           [("models", PyList [PyDict [("name", PyStr "llama3.1:8b")]])]
           ["llama3.1:8b"]).
  reflexivity.
Defined.

(** X15: an entry without a name after one that does not match. *)
Lemma nameless_entry_raises :
  test_connection "llama3"
    (Some (200, PyDict [("models", PyList [PyDict [("name", PyStr "mistral")];
                                           PyDict []])]))
  = Raise TypeError.
Proof.
  apply (test_connection_nameless_entry "llama3"
           [("models", PyList [PyDict [("name", PyStr "mistral")]; PyDict []])]
           ["mistral"] []);
    reflexivity.
Defined.

(** X16: a validated configuration whose prompt file is blank. *)
Lemma blank_prompt_file_gives_empty_prompt :
  get_system_prompt (fun _ => Content " ")
    {| WEBSOCKET_URI := "ws://host"; SYSTEM_PROMPT := EmptyString;
       SYSTEM_PROMPT_FILE := "prompt.txt" |}
  = Prompt EmptyString.
Proof.
  apply (validated_prompt (fun _ => Content " ")
           {| WEBSOCKET_URI := "ws://host"; SYSTEM_PROMPT := EmptyString;
              SYSTEM_PROMPT_FILE := "prompt.txt" |}).
  - reflexivity.
  - split; [reflexivity|]. exists " ". split; reflexivity.
Defined.

(** X17 on the record [reply_record] in a fence tagged [json]. *)
Lemma fenced_record_is_recovered :
  extract_json_from_text
    ("```json" +:+ newline +:+ "{"
     +:+ (dquote +:+ "action" +:+ dquote +:+ ":" +:+ dquote +:+ "reply" +:+ dquote)
     +:+ "}" +:+ newline +:+ "```")
  = PyDict reply_record.
Proof.
  destruct (fenced_reply_is_recovered
              (dquote +:+ "action" +:+ dquote +:+ ":" +:+ dquote +:+ "reply" +:+ dquote)
              (PyDict reply_record))
    as [Htagged _]; [reflexivity..|].
  exact Htagged.
Defined.

End FurtherScenarios.

Section FurtherScenariosUntotalled.

#[local] Existing Instance worked.

(** X18 on a fragment of [g3] that states no total. *)
Lemma untotalled_fragments_pile_up :
  (feed (init true)
     [frame (PyDict frag_untotalled); frame (PyDict frag_untotalled)]).2
  = [Return PyNone; Return PyNone]
  /\ acc_of (feed (init true)
               [frame (PyDict frag_untotalled); frame (PyDict frag_untotalled)]).1
       (KStr "g3")
     = [frag_untotalled; frag_untotalled].
Proof.
  apply (totalless_group_never_completes (init true) (KStr "g3")
           [frame (PyDict frag_untotalled); frame (PyDict frag_untotalled)]
           [frag_untotalled; frag_untotalled]).
  - reflexivity.
  - arrives.
  - intros d Hd. exists 0. in_list Hd; split; first [reflexivity|lia].
Defined.

End FurtherScenariosUntotalled.

Section BlankScenario.

#[local] Existing Instance worked3.


End BlankScenario.
